(** * predictGrowth-bot: the LLM response pipeline of [backend/src/llmService.ts]
    and the [/api/ask] request handler, as a shallow embedding.

    - A JavaScript string is a sequence of UTF-16 code units: a [list N].
    - A value built by [JSON.parse] is a [json]; an object is a finite map
      from property names to values, [undefined] is [None].
    - A call that can throw returns an [outcome]; the asynchronous functions
      run one after the other in a state that records the calls made (the
      [trace]), the database connection flag and the stored history.
    - The two providers, the database and the clock are a [World]: what they
      answer is arbitrary, what the program does with it is modelled.
    - Console output is left out. A log argument whose evaluation can throw
      is evaluated where the program evaluates it. *)

From Stdlib Require Import ZArith NArith Ascii String List Bool Lia.
From stdpp Require Import gmap strings list fin_maps.

Set Warnings "-register-all".
Open Scope N_scope.

(** ** Strings *)

Abbreviation jsstring := (list N).

(** A source literal (all literals of the program are ASCII). *)
Definition lit (s : string) : jsstring := N_of_ascii <$> list_ascii_of_string s.

(** ECMAScript [WhiteSpace] and [LineTerminator] code units: what
    [String.prototype.trim] strips and what [\s] matches. *)
Definition is_white_space (c : N) : bool :=
  (c =? 9) || (c =? 10) || (c =? 11) || (c =? 12) || (c =? 13) || (c =? 32)
  || (c =? 0xA0) || (c =? 0x1680) || ((0x2000 <=? c) && (c <=? 0x200A))
  || (c =? 0x2028) || (c =? 0x2029) || (c =? 0x202F) || (c =? 0x205F)
  || (c =? 0x3000) || (c =? 0xFEFF).

(** [LineTerminator] code units: what [.] does not match. *)
Definition is_line_terminator (c : N) : bool :=
  (c =? 10) || (c =? 13) || (c =? 0x2028) || (c =? 0x2029).

Fixpoint trimStart (s : jsstring) : jsstring :=
  match s with
  | c :: s' => if is_white_space c then trimStart s' else s
  | [] => []
  end.

Fixpoint trimEnd (s : jsstring) : jsstring :=
  match s with
  | [] => []
  | c :: s' =>
      match trimEnd s' with
      | [] => if is_white_space c then [] else [c]
      | r => c :: r
      end
  end.

(** [s.trim()] *)
Definition trim (s : jsstring) : jsstring := trimEnd (trimStart s).

(** [s.substring(0, n)] *)
Definition substring0 (n : nat) (s : jsstring) : jsstring := take n s.

(** [s.startsWith(p)] *)
Fixpoint startsWith (s p : jsstring) : bool :=
  match p, s with
  | [], _ => true
  | c :: p', x :: s' => (x =? c) && startsWith s' p'
  | _ :: _, [] => false
  end.

Definition str_eqb (a b : jsstring) : bool := bool_decide (a = b).

(** ** Regular expressions

    The fragment of ECMAScript patterns the program uses, matched by
    backtracking in the order the language prescribes. A match continues
    with [k] on the rest of the input; a failure of [k] backtracks into the
    last choice point. There is a single capturing group. *)

Inductive regex :=
| REps
| RChar (c : N)
| RSeq (r1 r2 : regex)
| ROpt (r : regex)                (* r?      *)
| RStar (p : N -> bool)           (* [p]*    *)
| RStarLazy (p : N -> bool)       (* [p]*?   *)
| RGroup (r : regex)              (* ( r )   *)
| REnd.                           (* $       *)

Fixpoint star_greedy {A} (p : N -> bool) (k : jsstring -> option A)
    (s : jsstring) : option A :=
  match s with
  | x :: s' =>
      if p x then
        match star_greedy p k s' with
        | Some a => Some a
        | None => k s
        end
      else k s
  | [] => k s
  end.

Fixpoint star_lazy {A} (p : N -> bool) (k : jsstring -> option A)
    (s : jsstring) : option A :=
  match k s with
  | Some a => Some a
  | None =>
      match s with
      | x :: s' => if p x then star_lazy p k s' else None
      | [] => None
      end
  end.

Fixpoint rmatch {A} (r : regex) (s : jsstring) (cap : option jsstring)
    (k : jsstring -> option jsstring -> option A) : option A :=
  match r with
  | REps => k s cap
  | RChar c =>
      match s with
      | x :: s' => if x =? c then k s' cap else None
      | [] => None
      end
  | RSeq r1 r2 => rmatch r1 s cap (fun s' cap' => rmatch r2 s' cap' k)
  | ROpt r' =>
      match rmatch r' s cap k with
      | Some a => Some a
      | None => k s cap
      end
  | RStar p => star_greedy p (fun s' => k s' cap) s
  | RStarLazy p => star_lazy p (fun s' => k s' cap) s
  | RGroup r' =>
      rmatch r' s cap
        (fun s' _ => k s' (Some (take (length s - length s') s)))
  | REnd => match s with [] => k [] cap | _ :: _ => None end
  end.

Definition RLit (s : jsstring) : regex := foldr (fun c r => RSeq (RChar c) r) REps s.

Declare Scope regex_scope.
Delimit Scope regex_scope with re.
Infix "+++" := RSeq (at level 60, right associativity) : regex_scope.

(** One attempt at the start of [s]: the rest after the match and group 1. *)
Definition regex_exec (r : regex) (s : jsstring)
    : option (jsstring * option jsstring) :=
  rmatch r s None (fun rest cap => Some (rest, cap)).

(** [s.match(/^r/)[1]] for a pattern that opens with [^] (no [m] flag): only
    the attempt at index 0 can succeed. [None] is a failed match, [Some c]
    a match whose group 1 is [c]. *)
Definition match_group1 (r : regex) (s : jsstring) : option (option jsstring) :=
  snd <$> regex_exec r s.

(** [s.replace(/r/g, '$1')]. [skip] counts the code units of the last match
    still to be passed over. *)
Fixpoint replace_group1 (r : regex) (s : jsstring) (skip : nat) : jsstring :=
  match s with
  | [] =>
      match skip, regex_exec r [] with
      | O, Some (_, cap) => default [] cap
      | _, _ => []
      end
  | c :: s' =>
      match skip with
      | S n => replace_group1 r s' n
      | O =>
          match regex_exec r s with
          | Some (rest, cap) =>
              default [] cap ++
                match (length s - length rest)%nat with
                | O => c :: replace_group1 r s' 0
                | S n => replace_group1 r s' n
                end
          | None => c :: replace_group1 r s' 0
          end
      end
  end.

Definition any_char (_ : N) : bool := true.
Definition dot (c : N) : bool := negb (is_line_terminator c).

(** [/^```(?:json)?\s*([\s\S]*?)\s*```$/] *)
Definition fence_pattern : regex :=
  (RLit (lit "```") +++ ROpt (RLit (lit "json")) +++ RStar is_white_space
   +++ RGroup (RStarLazy any_char) +++ RStar is_white_space
   +++ RLit (lit "```") +++ REnd)%re.

(** [/\*\*(.*?)\*\*/g] and [/__(.*?)__/g] *)
Definition bold_stars : regex :=
  (RLit (lit "**") +++ RGroup (RStarLazy dot) +++ RLit (lit "**"))%re.
Definition bold_underscores : regex :=
  (RLit (lit "__") +++ RGroup (RStarLazy dot) +++ RLit (lit "__"))%re.

(** [removeMarkdownBold] (the argument is a string at every call site). *)
Definition removeMarkdownBold (text : jsstring) : jsstring :=
  replace_group1 bold_underscores (replace_group1 bold_stars text 0) 0.

(** Lines 213-221 of [parseAndValidateAIResponse]: the string handed to
    [JSON.parse]. An empty group 1 is falsy, so the text stays as it is. *)
Definition extract (rawContentFromLLM : jsstring) : jsstring :=
  let jsonStringToParse := trim rawContentFromLLM in
  match match_group1 fence_pattern jsonStringToParse with
  | Some (Some ((_ :: _) as inner)) => trim inner
  | _ => jsonStringToParse
  end.

(** ** Numbers

    A JSON number is an IEEE 754 binary64 value. [DFin neg m e] is
    [(-1)^neg * m * 2^e] in canonical form: [2^52 <= m < 2^53] with
    [-1074 <= e <= 971], or [0 < m < 2^52] with [e = -1074]. *)

Inductive double :=
| DZero (neg : bool)
| DInf (neg : bool)
| DFin (neg : bool) (m : Z) (e : Z).

#[global] Instance double_eq_dec : EqDecision double.
Proof. solve_decision. Defined.

Definition round_half_even (n d : Z) : Z :=
  let q := (n / d)%Z in
  match (2 * (n mod d) ?= d)%Z with
  | Lt => q
  | Gt => (q + 1)%Z
  | Eq => if Z.even q then q else (q + 1)%Z
  end.

(** The binary64 value nearest to [n / d] (for [0 <= n], [0 < d]), ties to
    the even significand: the Number value of a numeric literal. *)
Definition double_of_ratio (neg : bool) (n d : Z) : double :=
  if (n =? 0)%Z then DZero neg else
  let b0 := (Z.log2 n - Z.log2 d)%Z in
  let ge := if (0 <=? b0)%Z then (d * 2 ^ b0 <=? n)%Z else (d <=? n * 2 ^ (- b0))%Z in
  let b := if ge then b0 else (b0 - 1)%Z in
  let x := (Z.max b (-1022) - 52)%Z in
  let m := if (0 <=? x)%Z then round_half_even n (d * 2 ^ x)
           else round_half_even (n * 2 ^ (- x)) d in
  if (m =? 0)%Z then DZero neg else
  let '(m, x) := if (m =? 2 ^ 53)%Z then (2 ^ 52, x + 1)%Z else (m, x) in
  if (971 <? x)%Z then DInf neg else DFin neg m x.

(** [mant * 10^exp10], rounded. *)
Definition double_of_decimal (neg : bool) (mant : N) (exp10 : Z) : double :=
  if (0 <=? exp10)%Z then double_of_ratio neg (Z.of_N mant * 10 ^ exp10) 1
  else double_of_ratio neg (Z.of_N mant) (10 ^ (- exp10)).

Definition double_of_Z (z : Z) : double :=
  double_of_ratio (z <? 0)%Z (Z.abs z) 1.

Definition is_zero (d : double) : bool :=
  match d with DZero _ => true | _ => false end.

Fixpoint digits_of_uint (u : Decimal.uint) : jsstring :=
  match u with
  | Decimal.Nil => []
  | Decimal.D0 r => 48 :: digits_of_uint r
  | Decimal.D1 r => 49 :: digits_of_uint r
  | Decimal.D2 r => 50 :: digits_of_uint r
  | Decimal.D3 r => 51 :: digits_of_uint r
  | Decimal.D4 r => 52 :: digits_of_uint r
  | Decimal.D5 r => 53 :: digits_of_uint r
  | Decimal.D6 r => 54 :: digits_of_uint r
  | Decimal.D7 r => 55 :: digits_of_uint r
  | Decimal.D8 r => 56 :: digits_of_uint r
  | Decimal.D9 r => 57 :: digits_of_uint r
  end.

(** The decimal digits of a natural number. *)
Definition digits_of_N (n : N) : jsstring := digits_of_uint (N.to_uint n).

(** The least [n >= lo] with [vn / vd < 10^n], searched over [fuel] steps. *)
Fixpoint decimal_exponent (fuel : nat) (vn vd lo : Z) : Z :=
  match fuel with
  | O => lo
  | S fuel' =>
      let below := if (0 <=? lo)%Z then (vn <? vd * 10 ^ lo)%Z
                   else (vn * 10 ^ (- lo) <? vd)%Z in
      if below then lo else decimal_exponent fuel' vn vd (lo + 1)%Z
  end.

(** The shortest digit string [s] of [k] digits with [s * 10^(n-k)] rounding
    to the double [v = vn / vd], the nearest such if there are two, where
    [10^(n-1) <= v < 10^n]; the search goes upward from [k] for [fuel]
    steps, and 17 digits always suffice. *)
Fixpoint shortest_digits (fuel : nat) (v : double) (vn vd n k : Z) : Z * Z :=
  match fuel with
  | O => (0, n)%Z
  | S fuel' =>
      let sh := (n - k)%Z in
      let '(tn, td) := if (0 <=? sh)%Z then (vn, vd * 10 ^ sh)%Z
                       else (vn * 10 ^ (- sh), vd)%Z in
      let lo := (tn / td)%Z in
      let hi := (lo + 1)%Z in
      let back (s : Z) :=
        if (0 <=? sh)%Z then double_of_ratio false (s * 10 ^ sh) 1
        else double_of_ratio false s (10 ^ (- sh)) in
      let ok_lo := bool_decide (back lo = v) in
      let ok_hi := bool_decide (back hi = v) in
      let pick (s : Z) := if (s =? 10 ^ k)%Z then (10 ^ (k - 1), n + 1)%Z else (s, n) in
      match ok_lo, ok_hi with
      | true, true =>
          match (2 * (tn mod td) ?= td)%Z with
          | Lt => pick lo
          | Gt => pick hi
          | Eq => if Z.even lo then pick lo else pick hi
          end
      | true, false => pick lo
      | false, true => pick hi
      | false, false => shortest_digits fuel' v vn vd n (k + 1)%Z
      end
  end.

Definition zeros (n : Z) : jsstring := replicate (Z.to_nat n) 48.

(** [Number::toString] in radix 10. *)
Definition Number_toString (d : double) : jsstring :=
  match d with
  | DZero _ => lit "0"
  | DInf neg => (if neg then lit "-" else []) ++ lit "Infinity"
  | DFin neg m e =>
      let '(vn, vd) := if (0 <=? e)%Z then (m * 2 ^ e, 1)%Z else (m, 2 ^ (- e))%Z in
      let n0 := decimal_exponent 700 vn vd (-330) in
      let '(s, n) := shortest_digits 17 (DFin false m e) vn vd n0 1 in
      let ds := digits_of_N (Z.to_N s) in
      let k := Z.of_nat (length ds) in
      let body :=
        if ((k <=? n) && (n <=? 21))%Z then ds ++ zeros (n - k)
        else if ((0 <? n) && (n <=? 21))%Z then
          take (Z.to_nat n) ds ++ lit "." ++ drop (Z.to_nat n) ds
        else if ((-6 <? n) && (n <=? 0))%Z then lit "0." ++ zeros (- n) ++ ds
        else
          let ex := (n - 1)%Z in
          take 1 ds ++ (if (k =? 1)%Z then [] else lit "." ++ drop 1 ds)
          ++ lit "e" ++ (if (ex <? 0)%Z then lit "-" else lit "+")
          ++ digits_of_N (Z.abs_N ex) in
      (if neg then lit "-" else []) ++ body
  end.

Arguments Number_toString : simpl never.

(** ** JSON values

    What [JSON.parse] builds: objects carry their own properties only. *)

Inductive json :=
| JNull
| JBool (b : bool)
| JNum (d : double)
| JStr (s : jsstring)
| JArr (l : list json)
| JObj (m : gmap jsstring json).

(** *** Lexing *)

Inductive token :=
| TLBrace | TRBrace | TLBrack | TRBrack | TColon | TComma
| TString (s : jsstring) | TNumber (d : double)
| TTrue | TFalse | TNull.

Definition is_digit (c : N) : bool := (48 <=? c) && (c <=? 57).

Definition hex_value (c : N) : option N :=
  if (48 <=? c) && (c <=? 57) then Some (c - 48)
  else if (65 <=? c) && (c <=? 70) then Some (c - 55)
  else if (97 <=? c) && (c <=? 102) then Some (c - 87)
  else None.

(** The leading decimal digits of [s], read onto [acc], with their count. *)
Fixpoint read_digits (s : jsstring) (acc : N) (count : nat) : N * nat * jsstring :=
  match s with
  | c :: s' =>
      if is_digit c then read_digits s' (10 * acc + (c - 48)) (S count)
      else (acc, count, s)
  | [] => (acc, count, [])
  end.

(** A complete number lexeme: an optional minus sign; the integer part, a
    single 0 or a digit string that does not start with 0; an optional
    fraction, a point and at least one digit; an optional exponent, e or E,
    an optional sign and at least one digit. *)
Definition number_of_lexeme (s : jsstring) : option double :=
  let '(neg, s) := match s with 45 :: s' => (true, s') | _ => (false, s) end in
  let '(int, ni, s1) := read_digits s 0 0 in
  let leading_zero := match s with 48 :: _ => true | _ => false end in
  if (ni =? 0)%nat || (leading_zero && negb (ni =? 1)%nat) then None else
  let frac :=
    match s1 with
    | 46 :: s2 =>
        let '(m, nf, s3) := read_digits s2 int 0 in
        if (nf =? 0)%nat then None else Some (m, nf, s3)
    | _ => Some (int, O, s1)
    end in
  '(mant, nf, s3) ← frac;
  let expo :=
    match s3 with
    | c :: s4 =>
        if (c =? 101) || (c =? 69) then
          let '(eneg, s5) :=
            match s4 with
            | 45 :: s' => (true, s')
            | 43 :: s' => (false, s')
            | _ => (false, s4)
            end in
          let '(ex, ne, s6) := read_digits s5 0 0 in
          match ne, s6 with
          | S _, [] => Some (if eneg then (- Z.of_N ex)%Z else Z.of_N ex)
          | _, _ => None
          end
        else None
    | [] => Some 0%Z
    end in
  ex ← expo;
  Some (double_of_decimal neg mant (ex - Z.of_nat nf)).

Inductive lex_mode :=
| LIdle
| LStr (acc : jsstring)                       (* in a string; [acc] reversed *)
| LEsc (acc : jsstring)                       (* after a backslash *)
| LUni (acc : jsstring) (code : N) (todo : nat)  (* in the digits of \uXXXX *)
| LNum (acc : jsstring)                       (* in a number; [acc] reversed *)
| LWord (rest : jsstring) (t : token).        (* in true, false or null *)

Definition is_number_char (c : N) : bool :=
  is_digit c || (c =? 45) || (c =? 43) || (c =? 46) || (c =? 101) || (c =? 69).

(** A code unit seen between tokens. JSON white space is tab, line feed,
    carriage return and space only. *)
Definition lex_idle (c : N) (toks : list token) : option (lex_mode * list token) :=
  if (c =? 9) || (c =? 10) || (c =? 13) || (c =? 32) then Some (LIdle, toks)
  else if c =? 123 then Some (LIdle, TLBrace :: toks)
  else if c =? 125 then Some (LIdle, TRBrace :: toks)
  else if c =? 91 then Some (LIdle, TLBrack :: toks)
  else if c =? 93 then Some (LIdle, TRBrack :: toks)
  else if c =? 58 then Some (LIdle, TColon :: toks)
  else if c =? 44 then Some (LIdle, TComma :: toks)
  else if c =? 34 then Some (LStr [], toks)
  else if (c =? 45) || is_digit c then Some (LNum [c], toks)
  else if c =? 116 then Some (LWord (lit "rue") TTrue, toks)
  else if c =? 102 then Some (LWord (lit "alse") TFalse, toks)
  else if c =? 110 then Some (LWord (lit "ull") TNull, toks)
  else None.

Definition lex_escape (c : N) : option N :=
  if c =? 34 then Some 34          (* quotation mark *)
  else if c =? 92 then Some 92     (* reverse solidus *)
  else if c =? 47 then Some 47     (* solidus *)
  else if c =? 98 then Some 8      (* b: backspace *)
  else if c =? 102 then Some 12    (* f: form feed *)
  else if c =? 110 then Some 10    (* n: line feed *)
  else if c =? 114 then Some 13    (* r: carriage return *)
  else if c =? 116 then Some 9     (* t: tab *)
  else None.

Definition lex_step (st : lex_mode * list token) (c : N)
    : option (lex_mode * list token) :=
  let '(mode, toks) := st in
  match mode with
  | LIdle => lex_idle c toks
  | LStr acc =>
      if c =? 34 then Some (LIdle, TString (rev acc) :: toks)
      else if c =? 92 then Some (LEsc acc, toks)
      else if c <? 32 then None
      else Some (LStr (c :: acc), toks)
  | LEsc acc =>
      if c =? 117 then Some (LUni acc 0 4, toks)
      else x ← lex_escape c; Some (LStr (x :: acc), toks)
  | LUni acc code todo =>
      h ← hex_value c;
      match todo with
      | S O => Some (LStr ((16 * code + h) :: acc), toks)
      | S n => Some (LUni acc (16 * code + h) n, toks)
      | O => None
      end
  | LNum acc =>
      if is_number_char c then Some (LNum (c :: acc), toks)
      else d ← number_of_lexeme (rev acc); lex_idle c (TNumber d :: toks)
  | LWord rest t =>
      match rest with
      | [x] => if c =? x then Some (LIdle, t :: toks) else None
      | x :: rest' => if c =? x then Some (LWord rest' t, toks) else None
      | [] => None
      end
  end.

Fixpoint lex_from (st : lex_mode * list token) (s : jsstring) : option (list token) :=
  match s with
  | c :: s' => st' ← lex_step st c; lex_from st' s'
  | [] =>
      match st with
      | (LIdle, toks) => Some (rev toks)
      | (LNum acc, toks) => d ← number_of_lexeme (rev acc); Some (rev (TNumber d :: toks))
      | _ => None
      end
  end.

Definition lex (s : jsstring) : option (list token) := lex_from (LIdle, []) s.

(** *** Parsing *)

(** An open container: an array with its elements so far (reversed), or an
    object with its properties so far and the name waiting for its value. *)
Inductive frame :=
| InArr (acc : list json)
| InObj (m : gmap jsstring json) (pending : option jsstring).

Inductive expect :=
| PValue        (* a value *)
| PArrFirst     (* after [: a value or ] *)
| PObjFirst     (* after {: a name or } *)
| PObjKey       (* after , in an object: a name *)
| PColon        (* after a name: the colon *)
| PAfter        (* after a value in a container: , or the closing bracket *)
| PDone (v : json).

(** A finished value goes to the innermost open container. A later property
    of the same name replaces the earlier one. *)
Definition deliver (v : json) (stack : list frame) : option (expect * list frame) :=
  match stack with
  | [] => Some (PDone v, [])
  | InArr acc :: st => Some (PAfter, InArr (v :: acc) :: st)
  | InObj m (Some k) :: st => Some (PAfter, InObj (<[k := v]> m) None :: st)
  | InObj _ None :: _ => None
  end.

Definition parse_value_token (t : token) (stack : list frame)
    : option (expect * list frame) :=
  match t with
  | TString s => deliver (JStr s) stack
  | TNumber d => deliver (JNum d) stack
  | TTrue => deliver (JBool true) stack
  | TFalse => deliver (JBool false) stack
  | TNull => deliver JNull stack
  | TLBrack => Some (PArrFirst, InArr [] :: stack)
  | TLBrace => Some (PObjFirst, InObj ∅ None :: stack)
  | _ => None
  end.

Definition parse_step (st : expect * list frame) (t : token)
    : option (expect * list frame) :=
  let '(e, stack) := st in
  match e, t, stack with
  | PValue, _, _ => parse_value_token t stack
  | PArrFirst, TRBrack, InArr acc :: st' => deliver (JArr (rev acc)) st'
  | PArrFirst, _, _ => parse_value_token t stack
  | PObjFirst, TRBrace, InObj m None :: st' => deliver (JObj m) st'
  | (PObjFirst | PObjKey), TString k, InObj m None :: st' =>
      Some (PColon, InObj m (Some k) :: st')
  | PColon, TColon, _ => Some (PValue, stack)
  | PAfter, TComma, InArr _ :: _ => Some (PValue, stack)
  | PAfter, TRBrack, InArr acc :: st' => deliver (JArr (rev acc)) st'
  | PAfter, TComma, InObj _ None :: _ => Some (PObjKey, stack)
  | PAfter, TRBrace, InObj m None :: st' => deliver (JObj m) st'
  | _, _, _ => None
  end.

Fixpoint parse_from (st : expect * list frame) (ts : list token) : option json :=
  match ts with
  | t :: ts' => st' ← parse_step st t; parse_from st' ts'
  | [] => match st with (PDone v, []) => Some v | _ => None end
  end.

(** [JSON.parse(text)]: [None] stands for the [SyntaxError] it throws. *)
Definition JSON_parse (text : jsstring) : option json :=
  ts ← lex text; parse_from (PValue, []) ts.

(** ** JavaScript values and operations on parsed data *)

Definition nl : jsstring := [10].

(** An object literal. *)
Definition obj (l : list (jsstring * json)) : json := JObj (list_to_map l).

(** A number literal of the source that is an integer. *)
Definition num (z : Z) : json := JNum (double_of_Z z).

(** A value read from a variable or a property: [None] is [undefined]. *)
Abbreviation js_value := (option json).

Definition truthy (v : js_value) : bool :=
  match v with
  | None | Some JNull => false
  | Some (JBool b) => b
  | Some (JNum d) => negb (is_zero d)
  | Some (JStr s) => match s with [] => false | _ :: _ => true end
  | Some (JArr _) | Some (JObj _) => true
  end.

(** [typeof v === 'object'] (which holds of [null] and of arrays too). *)
Definition typeof_object (v : js_value) : bool :=
  match v with
  | Some JNull | Some (JArr _) | Some (JObj _) => true
  | _ => false
  end.

Definition is_null (v : js_value) : bool :=
  match v with Some JNull => true | _ => false end.

Definition is_undefined (v : js_value) : bool :=
  match v with None => true | _ => false end.

(** [v.k] for the property names the program reads ([type], [follow_up],
    [answer], [title], [items], [message], [point], [detail], [choices],
    [content]): none of them is defined on a prototype, so only an object's
    own property answers. *)
Definition get (v : json) (k : jsstring) : js_value :=
  match v with
  | JObj m => m !! k
  | _ => None
  end.

(** [v[i]] for an index [i]. *)
Definition get_index (v : json) (i : nat) : js_value :=
  match v with
  | JObj m => m !! digits_of_N (N.of_nat i)
  | JArr l => l !! i
  | JStr s => (fun c => JStr [c]) <$> s !! i
  | _ => None
  end.

(** [v?.k] and [v?.[i]] *)
Definition opt_get (v : js_value) (k : jsstring) : js_value :=
  match v with
  | None | Some JNull => None
  | Some x => get x k
  end.

Definition opt_get_index (v : js_value) (i : nat) : js_value :=
  match v with
  | None | Some JNull => None
  | Some x => get_index x i
  end.

Definition str_or (a b : jsstring) : jsstring :=
  match a with [] => b | _ :: _ => a end.

(** The result of a call: a value, or a thrown [Error] with its message. *)
Inductive outcome (A : Type) :=
| Return (a : A)
| Throw (message : jsstring).
Arguments Return {A} a.
Arguments Throw {A} message.

(** [ToString(v)], as a template literal applies it. [None] is the
    [TypeError] of [OrdinaryToPrimitive]: an object with an own [toString]
    property (never callable in parsed data) has no primitive value. An
    array is joined with commas, [null] elements as empty strings. *)
Fixpoint ToString (v : json) : option jsstring :=
  match v with
  | JNull => Some (lit "null")
  | JBool b => Some (if b then lit "true" else lit "false")
  | JNum d => Some (Number_toString d)
  | JStr s => Some s
  | JArr l =>
      (fix join (l : list json) : option jsstring :=
         match l with
         | [] => Some []
         | x :: l' =>
             a ← match x with JNull => Some [] | _ => ToString x end;
             match l' with
             | [] => Some a
             | _ :: _ => b ← join l'; Some (a ++ lit "," ++ b)
             end
         end) l
  | JObj m =>
      match m !! lit "toString" with
      | Some _ => None
      | None => Some (lit "[object Object]")
      end
  end.

Definition TypeError_not_primitive : jsstring :=
  lit "Cannot convert object to primitive value".

(** ** llmService.ts *)

(** The object literal of an error response: its [type] is the string
    error and its [message] the given text. *)
Definition error_response (message : jsstring) : json :=
  obj [(lit "type", JStr (lit "error")); (lit "message", JStr message)].

(** Lines 238-243: [follow_up] is replaced by its text without bold when it
    is a truthy string, by [null] when it is anything else but [null] and
    [undefined]. *)
Definition normalize_follow_up (parsedData : gmap jsstring json)
    : gmap jsstring json :=
  let follow_up := parsedData !! lit "follow_up" in
  match follow_up with
  | Some (JStr s) =>
      if truthy follow_up
      then <[lit "follow_up" := JStr (removeMarkdownBold s)]> parsedData
      else <[lit "follow_up" := JNull]> parsedData
  | _ =>
      if negb (is_null follow_up) && negb (is_undefined follow_up)
      then <[lit "follow_up" := JNull]> parsedData
      else parsedData
  end.

(** Lines 261-270: the callback of [items.map]. *)
Definition normalize_item (item : json) : json :=
  if negb (typeof_object (Some item)) || is_null (Some item) then
    obj [(lit "point", JStr (lit "N/A"));
         (lit "detail", JStr (lit "Invalid item structure"))]
  else
    obj [(lit "point",
          JStr (removeMarkdownBold
                  match get item (lit "point") with
                  | Some (JStr p) => p
                  | _ => lit "N/A"
                  end));
         (lit "detail",
          JStr (removeMarkdownBold
                  match get item (lit "detail") with
                  | Some (JStr d) => d
                  | _ => lit "N/A"
                  end))].

Definition PV01 (source : jsstring) : jsstring :=
  lit "AI service response from " ++ source
  ++ lit " was not valid JSON. (E:PV01_" ++ source ++ lit ")".
Definition PV02 (source : jsstring) : jsstring :=
  lit "AI response from " ++ source
  ++ lit " invalid structure. (E:PV02_" ++ source ++ lit ")".
Definition PV03 (source : jsstring) : jsstring :=
  lit "AI 'text' response from " ++ source
  ++ lit " missing 'answer'. (E:PV03_" ++ source ++ lit ")".
Definition PV04 (source : jsstring) : jsstring :=
  lit "AI 'list' response from " ++ source
  ++ lit " invalid. (E:PV04_" ++ source ++ lit ")".
Definition PV05 (source : jsstring) : jsstring :=
  lit "AI 'error' response from " ++ source
  ++ lit " missing 'message'. (E:PV05_" ++ source ++ lit ")".
Definition PV06 (source type : jsstring) : jsstring :=
  lit "AI from " ++ source ++ lit " returned unknown type: '" ++ type
  ++ lit "'. (E:PV06_" ++ source ++ lit ")".

(** The [switch] on [parsedData.type] (lines 246-283). The default case
    formats the type into its message, which throws when the type has no
    primitive value. *)
Definition dispatch_on_type (parsedData : gmap jsstring json)
    (source : jsstring) : outcome json :=
  let type := parsedData !! lit "type" in
  match type with
  | Some (JStr t) =>
      if str_eqb t (lit "text") then
        match parsedData !! lit "answer" with
        | Some (JStr answer) =>
            Return (JObj (<[lit "answer" := JStr (removeMarkdownBold answer)]>
                            parsedData))
        | _ => Return (error_response (PV03 source))
        end
      else if str_eqb t (lit "list") then
        match parsedData !! lit "title", parsedData !! lit "items" with
        | Some (JStr title), Some (JArr items) =>
            Return (JObj (<[lit "items" := JArr (normalize_item <$> items)]>
                            (<[lit "title" := JStr (removeMarkdownBold title)]>
                               parsedData)))
        | _, _ => Return (error_response (PV04 source))
        end
      else if str_eqb t (lit "error") then
        match parsedData !! lit "message" with
        | Some (JStr _) => Return (JObj parsedData)
        | _ => Return (error_response (PV05 source))
        end
      else Return (error_response (PV06 source t))
  | Some v =>
      match ToString v with
      | Some t => Return (error_response (PV06 source t))
      | None => Throw TypeError_not_primitive
      end
  | None => Return (error_response (PV06 source (lit "undefined")))
  end.

(** Lines 233-283: the checks on the value [JSON.parse] returned. An array
    is an object without a [type]. *)
Definition validate_parsed (parsed : json) (source : jsstring) : outcome json :=
  if negb (typeof_object (Some parsed)) || is_null (Some parsed)
     || negb (truthy (get parsed (lit "type")))
  then Return (error_response (PV02 source))
  else
    match parsed with
    | JObj parsedData => dispatch_on_type (normalize_follow_up parsedData) source
    | _ => Return (error_response (PV02 source))
    end.

Definition parseAndValidateAIResponse (rawContentFromLLM source : jsstring)
    : outcome json :=
  let jsonStringToParse := extract rawContentFromLLM in
  match JSON_parse jsonStringToParse with
  | None => Return (error_response (PV01 source))
  | Some parsedData => validate_parsed parsedData source
  end.

(** *** Configuration and the outside world *)

Record Config := {
  OPENROUTER_API_KEY : jsstring;
  GOOGLE_AI_API_KEY : jsstring;
  KNOWLEDGE_BASE_CONTENT : jsstring;
  (* process.env: [None] is an unset variable *)
  KNOWLEDGE_BASE_CONTENT_OVERRIDE : option jsstring;
  YOUR_SITE_URL : option jsstring;
  YOUR_APP_NAME : option jsstring;
  MONGODB_URI : option jsstring
}.

Definition OPENROUTER_API_URL : jsstring :=
  lit "https://openrouter.ai/api/v1/chat/completions".
Definition DEFAULT_OPENROUTER_MODEL : jsstring := lit "google/gemma-3-27b-it:free".
Definition GOOGLE_AI_MODEL_NAME : jsstring := lit "gemini-2.0-flash".

(** The template literal [sharedSystemPromptForJSON]; [~] stands for the
    double quote in the text below. *)
Definition sharedSystemPromptForJSON : jsstring :=
  (fun c => if c =? 126 then 34 else c) <$> lit "
You are a specialized AI assistant for startup fundraising queries.
Your answers MUST be based *EXCLUSIVELY* on the DOCUMENT provided in the user's message.
Do not invent information or use external knowledge.
Your entire response MUST be a single, valid JSON object.
Do NOT include ANY conversational preamble, introductory sentences, or any text whatsoever outside the JSON structure itself.
Your response MUST start with '{' and end with '}'.
If the DOCUMENT does not contain information to answer the question, or if you cannot confidently answer based SOLELY on the DOCUMENT,
your *entire* output MUST be exactly this JSON object:
{~type~: ~text~, ~answer~: ~I'm sorry, but I cannot find specific information on that topic within the provided fundraising guide.~, ~follow_up~: null}

Available JSON response structures:

1.  For textual answers:
    {
      ~type~: ~text~,
      ~answer~: ~A detailed, concise answer derived from the DOCUMENT.~,
      ~follow_up~: ~An optional, relevant follow-up question based on the answer, or null.~
    }

2.  For answers best presented as a list (e.g., steps, tips, components):
    {
      ~type~: ~list~,
      ~title~: ~A brief, descriptive title for the list.~,
      ~items~: [
        { ~point~: ~Short heading for the first item.~, ~detail~: ~Detailed explanation for the first item, from the DOCUMENT.~ },
        { ~point~: ~Short heading for the second item.~, ~detail~: ~Detailed explanation for the second item, from the DOCUMENT.~ }
      ],
      ~follow_up~: ~An optional, relevant follow-up question, or null.~
    }
    Each item in the ~items~ array MUST be an object with ~point~ and ~detail~ string keys.

IMPORTANT FORMATTING RULES FOR JSON STRING VALUES:
- Ensure all string values are properly escaped (e.g., newlines as \n, quotes as \~).
- DO NOT use Markdown (like **bold** or *italics*).
".

(** A document of the [QAHistory] collection. *)
Record QAHistory := {
  userId : jsstring;
  question : jsstring;
  llmResponse : json;
  timestamp : Z
}.

(** What lies outside the program: the two provider services, the database
    and the clock. Each call either returns or throws. *)
Record World := {
  (* axios.post(url, body, config): the [data] of the response *)
  axios_post : jsstring -> json -> json -> outcome json;
  (* new GoogleGenerativeAI(key).getGenerativeModel(params)
       .generateContent(prompt), then response.text() *)
  generateContent : jsstring -> json -> jsstring -> outcome jsstring;
  (* mongoose.connect(uri, options) *)
  mongoose_connect : jsstring -> outcome unit;
  (* document.save(): whether the write of the entry goes through *)
  save_entry : QAHistory -> outcome unit;
  (* Date.now() *)
  now : Z
}.

Inductive event :=
| EvAttemptOpenRouter (question modelToUse : jsstring)
| EvAxiosPost (url : jsstring) (body config : json)
| EvGetAnswerFromGoogleAI (question : jsstring)
| EvGenerateContent (apiKey : jsstring) (params : json) (prompt : jsstring)
(* mongoose.connection.on(eventName, listener), with the value the listener
   assigns to [isConnected] when the connection raises the event *)
| EvConnectionOn (eventName : jsstring) (assigns : bool)
| EvSave (entry : QAHistory).

(** The state calls act on: the calls made so far, the module variable
    [isConnected] of db.ts and the stored history. *)
Record state := {
  trace : list event;
  isConnected : bool;
  history : list QAHistory
}.

(** *** Calls: state passing with exceptions *)

Definition M (A : Type) : Type := state -> outcome A * state.

Definition ret {A} (a : A) : M A := fun st => (Return a, st).
Definition throw {A} (message : jsstring) : M A := fun st => (Throw message, st).
Definition bind {A B} (m : M A) (f : A -> M B) : M B :=
  fun st =>
    match m st with
    | (Return a, st') => f a st'
    | (Throw e, st') => (Throw e, st')
    end.
Definition try_catch {A} (m : M A) (handler : jsstring -> M A) : M A :=
  fun st =>
    match m st with
    | (Return a, st') => (Return a, st')
    | (Throw e, st') => handler e st'
    end.
Definition lift {A} (o : outcome A) : M A := fun st => (o, st).
Definition emit (e : event) : M unit :=
  fun st => (Return tt, {| trace := trace st ++ [e];
                           isConnected := isConnected st;
                           history := history st |}).

Notation "'let*' x ':=' m 'in' k" := (bind m (fun x => k))
  (at level 10, x name, m at level 100, k at level 200).

Section Service.

Variable cfg : Config.
Variable world : World.

(** [process.env.KNOWLEDGE_BASE_CONTENT_OVERRIDE || KNOWLEDGE_BASE_CONTENT] *)
Definition effectiveKnowledgeBase : jsstring :=
  str_or (default [] (KNOWLEDGE_BASE_CONTENT_OVERRIDE cfg)) (KNOWLEDGE_BASE_CONTENT cfg).

Definition CFG00 : jsstring :=
  lit "Critical Error: AI service API key(s) missing. Contact support. (E:CFG00)".
Definition CFG02 : jsstring :=
  lit "Critical Error: Knowledge base unavailable. Contact support. (E:CFG02)".

Definition commonPreChecks : option json :=
  if negb (truthy (Some (JStr (OPENROUTER_API_KEY cfg))))
     && negb (truthy (Some (JStr (GOOGLE_AI_API_KEY cfg))))
  then Some (error_response CFG00)
  else if negb (truthy (Some (JStr effectiveKnowledgeBase)))
  then Some (error_response CFG02)
  else None.

(** The budget of the knowledge document in a prompt, in code units. *)
Definition DOCUMENT_BUDGET : nat := N.to_nat 25000.

Definition userPromptContent (question : jsstring) : jsstring :=
  lit "DOCUMENT:" ++ nl ++ lit "---" ++ nl
  ++ substring0 DOCUMENT_BUDGET effectiveKnowledgeBase
  ++ nl ++ lit "---" ++ nl ++ lit "USER QUESTION: " ++ question.

Definition requestBody (question modelToUse : jsstring) : json :=
  obj [(lit "model", JStr modelToUse);
       (lit "messages",
        JArr [obj [(lit "role", JStr (lit "system"));
                   (lit "content", JStr sharedSystemPromptForJSON)];
              obj [(lit "role", JStr (lit "user"));
                   (lit "content", JStr (userPromptContent question))]]);
       (lit "response_format", obj [(lit "type", JStr (lit "json_object"))]);
       (lit "temperature", JNum (double_of_decimal false 2 (-1)));
       (lit "max_tokens", num 2000)].

Definition requestConfig : json :=
  obj [(lit "headers",
        obj [(lit "Authorization", JStr (lit "Bearer " ++ OPENROUTER_API_KEY cfg));
             (lit "Content-Type", JStr (lit "application/json"));
             (lit "HTTP-Referer",
              JStr (str_or (default [] (YOUR_SITE_URL cfg)) (lit "http://localhost:3000")));
             (lit "X-Title",
              JStr (str_or (default [] (YOUR_APP_NAME cfg)) (lit "FundraisingQABot-OR")))]);
       (lit "timeout", num 75000)].

Definition attemptOpenRouter (question modelToUse : jsstring) : M json :=
  let* _ := emit (EvAttemptOpenRouter question modelToUse) in
  if negb (truthy (Some (JStr (OPENROUTER_API_KEY cfg)))) then
    throw (lit "OpenRouter API key not configured for attemptOpenRouter. (E:OR_CFG)")
  else
    try_catch
      (let* _ := emit (EvAxiosPost OPENROUTER_API_URL
                         (requestBody question modelToUse) requestConfig) in
       let* data := lift (axios_post world OPENROUTER_API_URL
                            (requestBody question modelToUse) requestConfig) in
       let rawContent :=
         opt_get (opt_get (opt_get_index (opt_get (Some data) (lit "choices")) 0)
                    (lit "message")) (lit "content") in
       match rawContent with
       | Some (JStr raw) =>
           if negb (truthy rawContent) || str_eqb (trim raw) [] then
             throw (lit "OpenRouter AI service returned empty or invalid content. (E:OR_LR01)")
           else lift (parseAndValidateAIResponse raw (lit "OpenRouter"))
       | _ =>
           throw (lit "OpenRouter AI service returned empty or invalid content. (E:OR_LR01)")
       end)
      (fun error => throw error).

Definition generationParams : json :=
  obj [(lit "model", JStr GOOGLE_AI_MODEL_NAME);
       (lit "generationConfig",
        obj [(lit "responseMimeType", JStr (lit "application/json"));
             (lit "temperature", JNum (double_of_decimal false 2 (-1)));
             (lit "maxOutputTokens", num 2000)])].

Definition indent8 : jsstring := lit "        ".

Definition fullPromptForGoogleAI (question : jsstring) : jsstring :=
  nl ++ indent8 ++ sharedSystemPromptForJSON ++ lit " " ++ nl
  ++ nl
  ++ indent8 ++ lit "DOCUMENT:" ++ nl
  ++ indent8 ++ lit "---" ++ nl
  ++ indent8 ++ substring0 DOCUMENT_BUDGET effectiveKnowledgeBase ++ lit " " ++ nl
  ++ indent8 ++ lit "---" ++ nl
  ++ nl
  ++ indent8 ++ lit "USER QUESTION: " ++ question ++ nl
  ++ nl
  ++ indent8 ++ lit "JSON RESPONSE (ONLY the JSON object, no other text or markdown):" ++ nl
  ++ lit "    ".

Definition getAnswerFromGoogleAI (question : jsstring) : M json :=
  let* _ := emit (EvGetAnswerFromGoogleAI question) in
  if negb (truthy (Some (JStr (GOOGLE_AI_API_KEY cfg)))) then
    throw (lit "Google AI API key not configured. (E:GA_CFG)")
  else
    try_catch
      (let* _ := emit (EvGenerateContent (GOOGLE_AI_API_KEY cfg) generationParams
                         (fullPromptForGoogleAI question)) in
       let* rawContent := lift (generateContent world (GOOGLE_AI_API_KEY cfg)
                                  generationParams (fullPromptForGoogleAI question)) in
       if negb (truthy (Some (JStr rawContent))) || str_eqb (trim rawContent) [] then
         throw (lit "Google AI service returned empty content. (E:GA_LR01)")
       else lift (parseAndValidateAIResponse rawContent (lit "GoogleAI")))
      (fun error =>
         throw (lit "Google AI service failed: "
                ++ str_or error (lit "Unknown Google AI Error") ++ lit " (E:GA_AX)")).

Definition F01 (googleAIError : jsstring) : jsstring :=
  lit "All AI services failed. Google AI Error: "
  ++ str_or googleAIError (lit "Unknown Google AI Error") ++ lit " (E:F01)".
Definition F02 (openRouterError : jsstring) : jsstring :=
  lit "Primary AI service failed and no fallback configured. OpenRouter Error: "
  ++ str_or openRouterError (lit "Unknown OpenRouter Error") ++ lit " (E:F02)".

Definition getAnswerFromLLM (question : jsstring) : M json :=
  match commonPreChecks with
  | Some commonChecksResult => ret commonChecksResult
  | None =>
      try_catch (attemptOpenRouter question DEFAULT_OPENROUTER_MODEL)
        (fun openRouterError =>
           if truthy (Some (JStr (GOOGLE_AI_API_KEY cfg))) then
             try_catch (getAnswerFromGoogleAI question)
               (fun googleAIError => ret (error_response (F01 googleAIError)))
           else ret (error_response (F02 openRouterError)))
  end.

(** *** db.ts *)

Definition set_connected (b : bool) : M unit :=
  fun st => (Return tt, {| trace := trace st; isConnected := b; history := history st |}).

Definition get_connected : M bool := fun st => (Return (isConnected st), st).

(** Every failure of the connection is caught and logged. After a
    connection that succeeded the three listeners of lines 42-55 are
    registered on [mongoose.connection]. *)
Definition connectToDatabase : M unit :=
  let* connected := get_connected in
  if connected then ret tt
  else
    match MONGODB_URI cfg with
    | Some ((_ :: _) as uri) =>
        try_catch
          (let* _ := lift (mongoose_connect world uri) in
           let* _ := set_connected true in
           let* _ := emit (EvConnectionOn (lit "error") false) in
           let* _ := emit (EvConnectionOn (lit "disconnected") false) in
           emit (EvConnectionOn (lit "reconnected") true))
          (fun _ => set_connected false)
    | _ => ret tt
    end.

Definition ensureDbConnection : M unit :=
  let* connected := get_connected in
  if negb connected && truthy (JStr <$> MONGODB_URI cfg) then connectToDatabase
  else ret tt.

(** *** The handler of POST /api/ask *)

(** A request that passed [requireAuth] and [express.json()]. *)
Record Request := {
  (* req.body.question *)
  body_question : js_value;
  (* req.auth?.userId *)
  auth_userId : option jsstring
}.

Record Response := {
  status : nat;
  body : json
}.

(** [new QAHistoryModel(...).save()]: a write that goes through appends the
    entry, stamped with the current time. *)
Definition save (uid q : jsstring) (response : json) : M unit :=
  let entry := {| userId := uid; question := q; llmResponse := response;
                  timestamp := now world |} in
  let* _ := emit (EvSave entry) in
  let* _ := lift (save_entry world entry) in
  fun st => (Return tt, {| trace := trace st; isConnected := isConnected st;
                           history := history st ++ [entry] |}).

(** [globalErrorHandler] on an error that carries a message only. *)
Definition globalErrorHandler (message : jsstring) : Response :=
  {| status := 500;
     body := error_response (str_or message (lit "Internal Server Error")) |}.

Definition type_is (response : json) (t : jsstring) : bool :=
  match get response (lit "type") with
  | Some (JStr t') => str_eqb t' t
  | _ => false
  end.

Definition ask_handler (req : Request) : M Response :=
  match body_question req with
  | Some (JStr q) =>
      if negb (truthy (body_question req)) || str_eqb (trim q) [] then
        ret {| status := 400;
               body := error_response
                         (lit "Question is required and must be a non-empty string.") |}
      else
        try_catch
          (let* _ := ensureDbConnection in
           let* llmResponse := getAnswerFromLLM q in
           let* _ :=
             if truthy (JStr <$> auth_userId req)
                && (type_is llmResponse (lit "text") || type_is llmResponse (lit "list"))
             then try_catch (save (default [] (auth_userId req)) q llmResponse)
                    (fun _ => ret tt)
             else ret tt in
           ret {| status := 200; body := llmResponse |})
          (fun error => ret (globalErrorHandler error))
  | _ =>
      ret {| status := 400;
             body := error_response
                       (lit "Question is required and must be a non-empty string.") |}
  end.

End Service.

(** ** Notions the statements use *)

(** A source text in which [~] stands for the double quote. *)
Definition js (s : string) : jsstring := (fun c => if c =? 126 then 34 else c) <$> lit s.

(** The whole of [s] is a code fence around a non-empty inner text: the case
    in which lines 216-218 unwrap it. *)
Definition fenced (s : jsstring) : bool :=
  match match_group1 fence_pattern s with
  | Some (Some (_ :: _)) => true
  | _ => false
  end.

(** [s] is empty or starts with a code unit that is not white space. *)
Definition starts_black (s : jsstring) : Prop :=
  match s with c :: _ => is_white_space c = false | [] => True end.

Fixpoint no_group (r : regex) : bool :=
  match r with
  | RGroup _ => false
  | RSeq a b => no_group a && no_group b
  | ROpt a => no_group a
  | _ => true
  end.

(** A lower bound on the code units a match of [r] takes. *)
Fixpoint min_len (r : regex) : nat :=
  match r with
  | RChar _ => 1
  | RSeq a b => min_len a + min_len b
  | RGroup a => min_len a
  | _ => 0
  end.

(** The [type] of a response is one of the three legal ones. *)
Definition legal_kind (r : json) : Prop :=
  get r (lit "type") = Some (JStr (lit "text"))
  \/ get r (lit "type") = Some (JStr (lit "list"))
  \/ get r (lit "type") = Some (JStr (lit "error")).

Definition string_or_NA (v : js_value) : jsstring :=
  match v with Some (JStr s) => s | _ => lit "N/A" end.

(** The list item with the given two fields. *)
Definition item_of (point detail : jsstring) : json :=
  obj [(lit "point", JStr point); (lit "detail", JStr detail)].

Inductive provider := Primary | Secondary.

(** The adapter a call enters, if it enters one. *)
Definition invocation (e : event) : option provider :=
  match e with
  | EvAttemptOpenRouter _ _ => Some Primary
  | EvGetAnswerFromGoogleAI _ => Some Secondary
  | _ => None
  end.

Definition invocations (tr : list event) : list provider := omap invocation tr.

Definition is_network (e : event) : Prop :=
  match e with
  | EvAxiosPost _ _ _ | EvGenerateContent _ _ _ => True
  | _ => False
  end.

Definition is_call (e : event) : Prop :=
  match e with EvSave _ => False | _ => True end.

(** [st'] is [st] after the events [tl], the database untouched. *)
Definition after (st : state) (tl : list event) (st' : state) : Prop :=
  trace st' = trace st ++ tl
  /\ isConnected st' = isConnected st /\ history st' = history st.

(** [m] leaves the database alone and makes only calls that satisfy [P]. *)
Definition quiet {A} (P : event -> Prop) (m : M A) : Prop :=
  forall st o st', m st = (o, st') -> exists tl, Forall P tl /\ after st tl st'.

(** [world] with another behaviour of the history write. *)
Definition with_save_entry (w : World) (f : QAHistory -> outcome unit) : World :=
  {| axios_post := axios_post w; generateContent := generateContent w;
     mongoose_connect := mongoose_connect w; save_entry := f; now := now w |}.

Definition bad_request : Response :=
  {| status := 400;
     body := error_response (lit "Question is required and must be a non-empty string.") |}.

Definition valid_question (req : Request) (q : jsstring) : Prop :=
  body_question req = Some (JStr q) /\ q <> [] /\ trim q <> [].

Definition should_save (req : Request) (r : json) : bool :=
  truthy (JStr <$> auth_userId req)
  && (type_is r (lit "text") || type_is r (lit "list")).

Definition entry_of (world : World) (req : Request) (q : jsstring) (r : json) : QAHistory :=
  {| userId := default [] (auth_userId req); question := q; llmResponse := r;
     timestamp := now world |}.

(** A configuration with both keys and a short document, and a world in
    which OpenRouter times out and Google AI answers. *)
Definition demo_cfg : Config :=
  {| OPENROUTER_API_KEY := lit "or-key";
     GOOGLE_AI_API_KEY := lit "ga-key";
     KNOWLEDGE_BASE_CONTENT := lit "A SAFE is a Simple Agreement for Future Equity.";
     KNOWLEDGE_BASE_CONTENT_OVERRIDE := None;
     YOUR_SITE_URL := None;
     YOUR_APP_NAME := None;
     MONGODB_URI := None |}.

Definition demo_world : World :=
  {| axios_post := fun _ _ _ => Throw (lit "timeout of 75000ms exceeded");
     generateContent := fun _ _ _ =>
       Return (js "{~type~:~text~,~answer~:~A SAFE is a Simple Agreement for Future Equity.~,~follow_up~:null}");
     mongoose_connect := fun _ => Return tt;
     save_entry := fun _ => Throw (lit "buffering timed out after 10000ms");
     now := 0 |}.

Definition demo_state : state := {| trace := []; isConnected := false; history := [] |}.

Definition demo_request : Request :=
  {| body_question := Some (JStr (lit "What is a SAFE?"));
     auth_userId := Some (lit "user_1") |}.

(** [s.includes(p)] *)
Fixpoint contains (s p : jsstring) : bool :=
  startsWith s p || match s with [] => false | _ :: s' => contains s' p end.

(** Every code unit of [s] is white space. *)
Definition white (s : jsstring) : Prop := Forall (fun c => is_white_space c = true) s.

(** The code unit [m] does not occur in [s]. *)
Definition free_of (m : N) (s : jsstring) : Prop := Forall (fun c => c <> m) s.

(** The pattern of a bold span between two pairs of the marker [m]:
    [bold_stars] is [bold_pattern 42], [bold_underscores] is
    [bold_pattern 95]. *)
Definition bold_pattern (m : N) : regex :=
  (RLit [m; m] +++ RGroup (RStarLazy dot) +++ RLit [m; m])%re.

(** The part of [fence_pattern] after its group. *)
Definition fence_tail : regex :=
  (RStar is_white_space +++ RLit (lit "```") +++ REnd)%re.

(** [llmApiResponse.data?.choices?.[0]?.message?.content] *)
Definition content_of (data : json) : js_value :=
  opt_get (opt_get (opt_get_index (opt_get (Some data) (lit "choices")) 0)
             (lit "message")) (lit "content").

(** The messages of the errors the adapters throw themselves. *)
Definition OR_CFG : jsstring :=
  lit "OpenRouter API key not configured for attemptOpenRouter. (E:OR_CFG)".
Definition OR_LR01 : jsstring :=
  lit "OpenRouter AI service returned empty or invalid content. (E:OR_LR01)".
Definition GA_LR01 : jsstring :=
  lit "Google AI service returned empty content. (E:GA_LR01)".
Definition GA_AX (e : jsstring) : jsstring :=
  lit "Google AI service failed: " ++ e ++ lit " (E:GA_AX)".

(** The calls a run of the orchestrator can make, in their order. *)
Definition calls_of (cfg : Config) (q : jsstring) : list event :=
  [EvAttemptOpenRouter q DEFAULT_OPENROUTER_MODEL;
   EvAxiosPost OPENROUTER_API_URL (requestBody cfg q DEFAULT_OPENROUTER_MODEL)
     (requestConfig cfg);
   EvGetAnswerFromGoogleAI q;
   EvGenerateContent (GOOGLE_AI_API_KEY cfg) generationParams
     (fullPromptForGoogleAI cfg q)].

(** A world in which OpenRouter is unreachable and Google AI sends a blank
    text. *)
Definition blank_world : World :=
  {| axios_post := fun _ _ _ => Throw (lit "Network Error");
     generateContent := fun _ _ _ => Return (lit " ");
     mongoose_connect := fun _ => Return tt;
     save_entry := fun _ => Return tt;
     now := 0 |}.

(** [demo_cfg] without the OpenRouter key. *)
Definition google_only_cfg : Config :=
  {| OPENROUTER_API_KEY := [];
     GOOGLE_AI_API_KEY := lit "ga-key";
     KNOWLEDGE_BASE_CONTENT := lit "A SAFE is a Simple Agreement for Future Equity.";
     KNOWLEDGE_BASE_CONTENT_OVERRIDE := None;
     YOUR_SITE_URL := None;
     YOUR_APP_NAME := None;
     MONGODB_URI := None |}.

(** A configuration whose document is 25000 code units long and then goes
    on with [tail]. *)
Definition long_cfg (tail : jsstring) : Config :=
  {| OPENROUTER_API_KEY := lit "or-key";
     GOOGLE_AI_API_KEY := lit "ga-key";
     KNOWLEDGE_BASE_CONTENT := replicate (N.to_nat 25000) 97 ++ tail;
     KNOWLEDGE_BASE_CONTENT_OVERRIDE := None;
     YOUR_SITE_URL := None;
     YOUR_APP_NAME := None;
     MONGODB_URI := None |}.


(** [body.messages[1].content]: the user message of a request body. *)
Definition user_content (body : json) : js_value :=
  opt_get (opt_get_index (get body (lit "messages")) 1) (lit "content").

(** OpenRouter answers the request for [q] with the non-blank text [raw]. *)
Definition primary_text (cfg : Config) (world : World) (q raw : jsstring) : Prop :=
  OPENROUTER_API_KEY cfg <> []
  /\ exists data,
       axios_post world OPENROUTER_API_URL (requestBody cfg q DEFAULT_OPENROUTER_MODEL)
         (requestConfig cfg) = Return data
       /\ content_of data = Some (JStr raw) /\ trim raw <> [].

(** The primary adapter fails on [q] with the message [e]: no key, a failed
    request, a response without a non-blank string content, or a text the
    validator throws on. *)
Definition primary_failure (cfg : Config) (world : World) (q e : jsstring) : Prop :=
  (OPENROUTER_API_KEY cfg = [] /\ e = OR_CFG)
  \/ (OPENROUTER_API_KEY cfg <> []
      /\ (axios_post world OPENROUTER_API_URL (requestBody cfg q DEFAULT_OPENROUTER_MODEL)
            (requestConfig cfg) = Throw e
          \/ (exists data,
                axios_post world OPENROUTER_API_URL
                  (requestBody cfg q DEFAULT_OPENROUTER_MODEL) (requestConfig cfg)
                = Return data
                /\ (forall raw, content_of data = Some (JStr raw) -> trim raw = [])
                /\ e = OR_LR01)
          \/ (exists raw,
                primary_text cfg world q raw
                /\ parseAndValidateAIResponse raw (lit "OpenRouter") = Throw e))).

(** Google AI answers the prompt for [q] with the non-blank text [raw]. *)
Definition secondary_text (cfg : Config) (world : World) (q raw : jsstring) : Prop :=
  generateContent world (GOOGLE_AI_API_KEY cfg) generationParams
    (fullPromptForGoogleAI cfg q) = Return raw
  /\ trim raw <> [].

(** The call of Google AI for [q] fails for the reason [cause]: the failure
    of the request, a blank text, or an exception of the validator. *)
Definition secondary_failure (cfg : Config) (world : World) (q cause : jsstring) : Prop :=
  (exists e,
     generateContent world (GOOGLE_AI_API_KEY cfg) generationParams
       (fullPromptForGoogleAI cfg q) = Throw e
     /\ cause = str_or e (lit "Unknown Google AI Error"))
  \/ (exists raw,
        generateContent world (GOOGLE_AI_API_KEY cfg) generationParams
          (fullPromptForGoogleAI cfg q) = Return raw
        /\ trim raw = [] /\ cause = GA_LR01)
  \/ (exists raw e,
        secondary_text cfg world q raw
        /\ parseAndValidateAIResponse raw (lit "GoogleAI") = Throw e
        /\ cause = str_or e (lit "Unknown Google AI Error")).



(** ** Tactics *)

(** Two property names differ. *)
Ltac keys_ne := vm_compute; congruence.

(** One step into a sequence of patterns. *)
Ltac seq_step H :=
  change (rmatch (RSeq ?a ?b) ?s ?c ?k)
    with (rmatch a s c (fun s' c' => rmatch b s' c' k)) in H.

(** A list of calls is a sublist of another, element by element. *)
Ltac sublist_tac :=
  repeat first [apply sublist_nil | apply sublist_skip | apply sublist_cons].

(** A state built by emitting calls is the start state after them. *)
Ltac after_tac :=
  split; [simpl; rewrite <- ?app_assoc; reflexivity|done].

(** * Properties *)

(** ** Trimming and fence extraction *)

Lemma trimEnd_idem s : trimEnd (trimEnd s) = trimEnd s.
Proof.
  induction s as [|c s IH]; simpl; [done|].
  destruct (trimEnd s) as [|d r] eqn:E.
  - destruct (is_white_space c) eqn:W; simpl; [done|]. by rewrite W.
  - simpl in *. by rewrite IH.
Qed.

Lemma trimStart_black s : starts_black (trimStart s).
Proof.
  induction s as [|c s IH]; simpl; [done|].
  destruct (is_white_space c) eqn:W; simpl; done.
Qed.

Lemma trimStart_fixed s : starts_black s -> trimStart s = s.
Proof. destruct s as [|c s]; simpl; [done|]. by intros ->. Qed.

Lemma trimEnd_black s : starts_black s -> starts_black (trimEnd s).
Proof.
  destruct s as [|c s]; simpl; [done|]. intros W.
  destruct (trimEnd s); rewrite ?W; simpl; done.
Qed.

Lemma trim_black s : starts_black (trim s).
Proof. apply trimEnd_black, trimStart_black. Qed.

Lemma trim_idem s : trim (trim s) = trim s.
Proof.
  unfold trim at 1. rewrite (trimStart_fixed (trim s)) by apply trim_black.
  apply trimEnd_idem.
Qed.

Lemma trimStart_length s : (length (trimStart s) <= length s)%nat.
Proof.
  induction s as [|c s IH]; simpl; [done|].
  destruct (is_white_space c); simpl; lia.
Qed.

Lemma trimEnd_length s : (length (trimEnd s) <= length s)%nat.
Proof.
  induction s as [|c s IH]; simpl; [done|].
  destruct (trimEnd s); [destruct (is_white_space c)|]; simpl in *; lia.
Qed.

Lemma trim_length s : (length (trim s) <= length s)%nat.
Proof. unfold trim. etrans; [apply trimEnd_length|apply trimStart_length]. Qed.

(** What comes out of the extraction is trimmed. *)
Lemma extract_trimmed x : trim (extract x) = extract x.
Proof.
  unfold extract.
  destruct (match_group1 fence_pattern (trim x)) as [[[|c inner]|]|]; apply trim_idem.
Qed.

(** A successful match has consumed a prefix of the input, at least as long
    as the literal code units of the pattern, and has continued on the rest;
    a pattern without a group hands the capture on as it got it. *)
Lemma star_greedy_sound {A} p (k : jsstring -> option A) s a :
  star_greedy p k s = Some a -> exists pre s', s = pre ++ s' /\ k s' = Some a.
Proof.
  induction s as [|x s IH]; simpl; intros H.
  - by exists [], [].
  - destruct (p x).
    + destruct (star_greedy p k s) as [b|].
      * destruct (IH H) as (pre & s' & -> & Hk). by exists (x :: pre), s'.
      * by exists [], (x :: s).
    + by exists [], (x :: s).
Qed.

Lemma star_lazy_sound {A} p (k : jsstring -> option A) s a :
  star_lazy p k s = Some a -> exists pre s', s = pre ++ s' /\ k s' = Some a.
Proof.
  induction s as [|x s IH]; simpl; intros H.
  - destruct (k []) eqn:E; [|done]. exists [], []. split; [done|]. congruence.
  - destruct (k (x :: s)) eqn:E.
    + exists [], (x :: s). split; [done|]. congruence.
    + destruct (p x); [|done]. destruct (IH H) as (pre & s' & -> & Hk).
      by exists (x :: pre), s'.
Qed.

Lemma rmatch_sound {A} r :
  forall s cap (k : jsstring -> option jsstring -> option A) a,
    rmatch r s cap k = Some a ->
    exists pre s' cap',
      s = pre ++ s' /\ k s' cap' = Some a
      /\ (min_len r <= length pre)%nat /\ (no_group r = true -> cap' = cap).
Proof.
  induction r as [| c | r1 IH1 r2 IH2 | r IH | p | p | r IH |]; simpl; intros s cap k a H.
  - exists [], s, cap. simpl. repeat split; [done|lia].
  - destruct s as [|x s]; [done|]. destruct (x =? c); [|done].
    exists [x], s, cap. simpl. repeat split; [done|lia].
  - apply IH1 in H as (pre1 & s1 & cap1 & -> & H & L1 & C1).
    apply IH2 in H as (pre2 & s2 & cap2 & -> & H & L2 & C2).
    exists (pre1 ++ pre2), s2, cap2. rewrite <- app_assoc, length_app.
    repeat split; [done|lia|]. intros [G1 G2]%andb_true_iff. rewrite C2, C1; done.
  - destruct (rmatch r s cap k) as [b|] eqn:E.
    + apply IH in E as (pre & s' & cap' & -> & Hk & _ & C).
      exists pre, s', cap'. repeat split; [congruence|lia|done].
    + exists [], s, cap. simpl. repeat split; [done|lia].
  - apply star_greedy_sound in H as (pre & s' & -> & Hk).
    exists pre, s', cap. repeat split; [done|lia].
  - apply star_lazy_sound in H as (pre & s' & -> & Hk).
    exists pre, s', cap. repeat split; [done|lia].
  - apply IH in H as (pre & s' & cap' & -> & Hk & L & _).
    exists pre, s', (Some (take (length (pre ++ s') - length s') (pre ++ s'))).
    repeat split; [done|lia|done].
  - destruct s; [|done]. exists [], [], cap. simpl. repeat split; [done|lia].
Qed.

(** The group captures exactly what its body consumed. *)
Lemma rmatch_group {A} r s cap (k : jsstring -> option jsstring -> option A) a :
  rmatch (RGroup r) s cap k = Some a ->
  exists pre s', s = pre ++ s' /\ k s' (Some pre) = Some a.
Proof.
  simpl. intros H. apply rmatch_sound in H as (pre & s' & cap' & -> & Hk & _ & _).
  exists pre, s'. split; [done|]. rewrite <- Hk. do 2 f_equal.
  rewrite length_app.
  replace (length pre + length s' - length s')%nat with (length pre) by lia.
  by rewrite take_app_length.
Qed.

(** The inner text of a fence is shorter than the fence: the two runs of
    three backticks lie outside it. *)
Lemma fence_capture_short s rest inner :
  regex_exec fence_pattern s = Some (rest, Some inner) ->
  (length inner + 6 <= length s)%nat.
Proof.
  unfold regex_exec, fence_pattern. intros H.
  seq_step H. apply rmatch_sound in H as (pre1 & s1 & cap1 & -> & H & L1 & C1).
  seq_step H. apply rmatch_sound in H as (pre2 & s2 & cap2 & -> & H & _ & C2).
  seq_step H. apply rmatch_sound in H as (pre3 & s3 & cap3 & -> & H & _ & C3).
  seq_step H. apply rmatch_group in H as (pre4 & s4 & -> & H).
  apply rmatch_sound in H as (pre5 & s5 & cap5 & -> & H & L5 & C5).
  rewrite C5 in H by done. injection H as -> ->.
  rewrite !length_app. change (min_len (RLit (lit "```"))) with 3%nat in L1.
  simpl in L5. lia.
Qed.

Lemma extract_unfenced x :
  fenced (extract x) = false -> extract (extract x) = extract x.
Proof.
  intros H. unfold extract at 1. rewrite extract_trimmed.
  unfold fenced in H.
  destruct (match_group1 fence_pattern (extract x)) as [[[|c inner]|]|]; done.
Qed.

Lemma extract_fenced_shorter y :
  fenced y = true -> trim y = y -> (length (extract y) < length y)%nat.
Proof.
  unfold fenced, extract, match_group1. intros H ->.
  destruct (regex_exec fence_pattern y) as [[rest [[|c inner]|]]|] eqn:E;
    simpl in *; try done.
  apply fence_capture_short in E. pose proof (trim_length (c :: inner)). lia.
Qed.

(** C6 (as amended). Extraction is idempotent at [x] exactly when what it
    returns for [x] is not again a whole code fence around a non-empty text:
    [extract (extract x) = extract x] holds if and only if [extract x] is not
    fenced. A fence inside a fence is unwrapped one layer per application. *)
Theorem extract_idempotent_iff x :
  extract (extract x) = extract x <-> fenced (extract x) = false.
Proof.
  split.
  - intros H. destruct (fenced (extract x)) eqn:F; [|done].
    apply extract_fenced_shorter in F; [|apply extract_trimmed].
    rewrite H in F. lia.
  - apply extract_unfenced.
Qed.

(** C6 (as stated) fails on a fence that wraps a fence: the first extraction
    peels the outer fence, the second the inner one. *)
Lemma nested_fence_not_idempotent :
  extract (lit "``````a``````") = lit "```a```"
  /\ extract (extract (lit "``````a``````")) = lit "a"
  /\ extract (extract (lit "``````a``````")) <> extract (lit "``````a``````").
Proof. vm_compute. repeat split; congruence. Qed.

Lemma rmatch_lit_fail {A} p r s cap (k : jsstring -> option jsstring -> option A) :
  startsWith s p = false -> rmatch (RSeq (RLit p) r) s cap k = None.
Proof.
  revert s. induction p as [|c p IH]; intros s H; [by destruct s|].
  destruct s as [|x s]; [done|]. simpl in H |- *.
  destruct (x =? c); [|done]. apply (IH s H).
Qed.

(** Texts that do not open with a fence are left alone by a second pass. *)
Lemma extract_idempotent_unfenced x :
  startsWith (extract x) (lit "```") = false -> extract (extract x) = extract x.
Proof.
  intros H. apply extract_unfenced. unfold fenced, match_group1, regex_exec.
  unfold fence_pattern. by rewrite rmatch_lit_fail.
Qed.

(** ** The validator *)

Lemma str_eqb_eq a b : str_eqb a b = true <-> a = b.
Proof. unfold str_eqb. apply bool_decide_eq_true. Qed.

Lemma legal_error m : legal_kind (error_response m).
Proof. right. right. reflexivity. Qed.

Lemma normalize_follow_up_other o k :
  k <> lit "follow_up" -> normalize_follow_up o !! k = o !! k.
Proof.
  intros Hk. unfold normalize_follow_up.
  destruct (o !! lit "follow_up") as [[]|]; simpl;
    try (by rewrite lookup_insert_ne); try done.
  destruct s; simpl; by rewrite lookup_insert_ne.
Qed.


Lemma validate_obj o source :
  truthy (o !! lit "type") = true ->
  validate_parsed (JObj o) source = dispatch_on_type (normalize_follow_up o) source.
Proof. unfold validate_parsed. simpl. by intros ->. Qed.

Lemma dispatch_kind o source r :
  dispatch_on_type o source = Return r -> legal_kind r.
Proof.
  unfold dispatch_on_type. destruct (o !! lit "type") as [v|] eqn:Hty.
  2:{ intros [= <-]. apply legal_error. }
  destruct v; try (destruct (ToString _); [|done]);
    try (intros [= <-]; apply legal_error).
  destruct (str_eqb s (lit "text")) eqn:E1.
  { apply str_eqb_eq in E1 as ->.
    destruct (o !! lit "answer") as [[]|]; intros [= <-]; try apply legal_error.
    left. simpl. by rewrite lookup_insert_ne by keys_ne. }
  destruct (str_eqb s (lit "list")) eqn:E2.
  { apply str_eqb_eq in E2 as ->.
    destruct (o !! lit "title") as [[]|]; try (intros [= <-]; apply legal_error).
    destruct (o !! lit "items") as [[]|]; intros [= <-]; try apply legal_error.
    right. left. simpl. by rewrite !lookup_insert_ne by keys_ne. }
  destruct (str_eqb s (lit "error")) eqn:E3.
  { apply str_eqb_eq in E3 as ->.
    destruct (o !! lit "message") as [[]|]; intros [= <-]; try apply legal_error.
    right. right. done. }
  intros [= <-]; apply legal_error.
Qed.

Lemma validate_kind v source r : validate_parsed v source = Return r -> legal_kind r.
Proof.
  unfold validate_parsed.
  destruct (_ || _); [intros [= <-]; apply legal_error|].
  destruct v; try (intros [= <-]; apply legal_error). apply dispatch_kind.
Qed.

Lemma validated_legal raw source r :
  parseAndValidateAIResponse raw source = Return r -> legal_kind r.
Proof.
  unfold parseAndValidateAIResponse. destruct (JSON_parse _).
  - apply validate_kind.
  - intros [= <-]; apply legal_error.
Qed.

(** X1. Whenever the validator returns, the [type] of what it returns is
    text, list or error. *)
Theorem validator_kind raw source r :
  parseAndValidateAIResponse raw source = Return r ->
  get r (lit "type") = Some (JStr (lit "text"))
  \/ get r (lit "type") = Some (JStr (lit "list"))
  \/ get r (lit "type") = Some (JStr (lit "error")).
Proof. apply validated_legal. Qed.

Lemma validator_kind_witness :
  get (error_response (PV01 (lit "OpenRouter"))) (lit "type") = Some (JStr (lit "text"))
  \/ get (error_response (PV01 (lit "OpenRouter"))) (lit "type") = Some (JStr (lit "list"))
  \/ get (error_response (PV01 (lit "OpenRouter"))) (lit "type") = Some (JStr (lit "error")).
Proof.
  apply (validator_kind (lit "not json at all") (lit "OpenRouter")).
  vm_compute. reflexivity.
Defined.

Lemma ToString_None_truthy v : ToString v = None -> truthy (Some v) = true.
Proof. destruct v; simpl; try done. Qed.

Lemma dispatch_throws o source e :
  dispatch_on_type o source = Throw e <->
  e = TypeError_not_primitive /\ exists v, o !! lit "type" = Some v /\ ToString v = None.
Proof.
  unfold dispatch_on_type. split.
  - destruct (o !! lit "type") as [v|]; [|done].
    destruct v; try (destruct (ToString _) eqn:T; [done|]; intros [= <-]; eauto).
    repeat (destruct (str_eqb _ _); [repeat case_match; done|]). done.
  - intros (-> & v & -> & T). destruct v; try (by rewrite T). done.
Qed.

(** X2. The validator throws exactly when the text parses to an object whose
    [type] cannot be converted to a string: an object with a [toString]
    property of its own, or an array that holds one. *)
Theorem validator_throws_iff raw source :
  (exists e, parseAndValidateAIResponse raw source = Throw e) <->
  exists o v, JSON_parse (extract raw) = Some (JObj o)
    /\ o !! lit "type" = Some v /\ ToString v = None.
Proof.
  unfold parseAndValidateAIResponse. split.
  - intros [e H]. destruct (JSON_parse (extract raw)) as [p|]; [|done].
    unfold validate_parsed in H. destruct (_ || _); [done|].
    destruct p; try done. apply dispatch_throws in H as (_ & v & Hv & T).
    rewrite normalize_follow_up_other in Hv by keys_ne. eauto.
  - intros (o & v & -> & Hv & T). exists TypeError_not_primitive.
    rewrite validate_obj by (rewrite Hv; by apply ToString_None_truthy).
    apply dispatch_throws. split; [done|]. exists v.
    by rewrite normalize_follow_up_other by keys_ne.
Qed.

(** C1 (the code departs from it). On a text that is an object whose [type]
    is an object with a [toString] property of its own (below, with [~] for
    the double quote) the validator does not return an error response: it
    throws the [TypeError] of the template literal that formats the unknown
    type into the PV06 message. *)
Theorem validator_throws_on_unprintable_type source :
  parseAndValidateAIResponse (js "{~type~:{~toString~:1}}") source
  = Throw TypeError_not_primitive.
Proof.
  unfold parseAndValidateAIResponse.
  replace (JSON_parse _)
    with (Some (obj [(lit "type", obj [(lit "toString", num 1)])]))
    by (vm_compute; reflexivity).
  reflexivity.
Qed.

(** C4 (the code departs from it). A [follow_up] that is the empty string is
    a string, yet the validated response carries [null] in its place: the
    empty string is falsy, so it falls into the branch meant for values that
    are neither strings nor [null]. *)
Theorem empty_follow_up_becomes_null source :
  parseAndValidateAIResponse
    (js "{~type~:~text~,~answer~:~a~,~follow_up~:~~}") source
  = Return (obj [(lit "type", JStr (lit "text")); (lit "answer", JStr (lit "a"));
                 (lit "follow_up", JNull)]).
Proof.
  unfold parseAndValidateAIResponse.
  replace (JSON_parse _)
    with (Some (obj [(lit "type", JStr (lit "text")); (lit "answer", JStr (lit "a"));
                     (lit "follow_up", JStr [])]))
    by (vm_compute; reflexivity).
  vm_compute. reflexivity.
Qed.

(** X3. What the validator makes of [follow_up] in a response it accepts: a
    non-empty string loses its bold marks, [null] stays, and everything
    else, the empty string included, becomes [null]. No value of
    [follow_up] turns an acceptable response into an error. *)
Theorem follow_up_normalized raw source o v :
  JSON_parse (extract raw) = Some (JObj o) ->
  o !! lit "follow_up" = Some v ->
  (o !! lit "type" = Some (JStr (lit "text"))
     /\ exists a, o !! lit "answer" = Some (JStr a))
  \/ (o !! lit "type" = Some (JStr (lit "list"))
     /\ (exists t, o !! lit "title" = Some (JStr t))
     /\ exists l, o !! lit "items" = Some (JArr l))
  \/ (o !! lit "type" = Some (JStr (lit "error"))
     /\ exists m, o !! lit "message" = Some (JStr m)) ->
  exists o',
    parseAndValidateAIResponse raw source = Return (JObj o')
    /\ o' !! lit "type" = o !! lit "type"
    /\ o' !! lit "follow_up"
       = Some match v with
              | JStr (c :: s) => JStr (removeMarkdownBold (c :: s))
              | _ => JNull
              end.
Proof.
  intros Hp Hf Hv. unfold parseAndValidateAIResponse. rewrite Hp.
  assert (normalize_follow_up o !! lit "follow_up"
          = Some match v with
                 | JStr (c :: s) => JStr (removeMarkdownBold (c :: s))
                 | _ => JNull
                 end) as Hn.
  { unfold normalize_follow_up. rewrite Hf.
    destruct v as [| | |[|c s]| |]; simpl; by rewrite ?lookup_insert_eq. }
  destruct Hv as [(Hty & a & Ha)|[(Hty & (t & Ht) & l & Hl)|(Hty & m & Hm)]];
    rewrite validate_obj by (by rewrite Hty);
    unfold dispatch_on_type;
    rewrite !normalize_follow_up_other by keys_ne; rewrite Hty.
  - rewrite Ha. change (str_eqb (lit "text") (lit "text")) with true. cbv iota.
    eexists. split; [reflexivity|].
    rewrite !lookup_insert_ne by keys_ne.
    by rewrite normalize_follow_up_other by keys_ne.
  - rewrite Ht, Hl. change (str_eqb (lit "list") (lit "text")) with false.
    change (str_eqb (lit "list") (lit "list")) with true. cbv iota.
    eexists. split; [reflexivity|].
    rewrite !lookup_insert_ne by keys_ne.
    by rewrite normalize_follow_up_other by keys_ne.
  - rewrite Hm. change (str_eqb (lit "error") (lit "text")) with false.
    change (str_eqb (lit "error") (lit "list")) with false.
    change (str_eqb (lit "error") (lit "error")) with true. cbv iota.
    eexists. split; [reflexivity|].
    by rewrite normalize_follow_up_other by keys_ne.
Qed.

(** A follow-up question in bold comes back without the marks. *)
Lemma follow_up_normalized_witness :
  exists o',
    parseAndValidateAIResponse
      (js "{~type~:~text~,~answer~:~a~,~follow_up~:~**more**?~}") (lit "OpenRouter")
    = Return (JObj o')
    /\ o' !! lit "follow_up" = Some (JStr (lit "more?")).
Proof.
  destruct (follow_up_normalized
              (js "{~type~:~text~,~answer~:~a~,~follow_up~:~**more**?~}")
              (lit "OpenRouter")
              (list_to_map
                 [(lit "type", JStr (lit "text")); (lit "answer", JStr (lit "a"));
                  (lit "follow_up", JStr (lit "**more**?"))])
              (JStr (lit "**more**?")))
    as (o' & Hr & _ & Hf).
  - vm_compute. reflexivity.
  - vm_compute. reflexivity.
  - left. split; [vm_compute; reflexivity|]. exists (lit "a"). vm_compute. reflexivity.
  - exists o'. split; [exact Hr|]. rewrite Hf. vm_compute. reflexivity.
Defined.

Lemma normalize_item_stripped item :
  exists p d, normalize_item item
              = item_of (removeMarkdownBold p) (removeMarkdownBold d).
Proof.
  destruct item; simpl;
    try (by exists (lit "N/A"), (lit "Invalid item structure")); eauto.
Qed.

(** C2 (as amended). A response that parses to an object with [type] list, a
    string [title] and an [items] array of length N is returned as a list
    response whose [items] has length N. Element by element: a JSON object
    keeps the text of its string-valued [point] and [detail], with N/A for
    a side that is missing or not a string; an array counts as an object
    without either field and becomes the item N/A, N/A; every other element
    (null, boolean, number, string) becomes the item N/A, Invalid item
    structure. Both fields of every resulting item are texts that
    [removeMarkdownBold] has stripped. *)
Theorem list_items_degrade raw source o title items :
  JSON_parse (extract raw) = Some (JObj o) ->
  o !! lit "type" = Some (JStr (lit "list")) ->
  o !! lit "title" = Some (JStr title) ->
  o !! lit "items" = Some (JArr items) ->
  exists o' items',
    parseAndValidateAIResponse raw source = Return (JObj o')
    /\ o' !! lit "type" = Some (JStr (lit "list"))
    /\ o' !! lit "items" = Some (JArr items')
    /\ length items' = length items
    /\ (forall (i : nat) item, items !! i = Some item ->
          items' !! i = Some
            match item with
            | JObj m =>
                item_of (removeMarkdownBold (string_or_NA (m !! lit "point")))
                        (removeMarkdownBold (string_or_NA (m !! lit "detail")))
            | JArr _ => item_of (lit "N/A") (lit "N/A")
            | _ => item_of (lit "N/A") (lit "Invalid item structure")
            end)
    /\ forall item', item' ∈ items' ->
         exists p d, item' = item_of (removeMarkdownBold p) (removeMarkdownBold d).
Proof.
  intros Hp Hty Hti Hit. unfold parseAndValidateAIResponse. rewrite Hp.
  rewrite validate_obj by (by rewrite Hty).
  unfold dispatch_on_type.
  rewrite !normalize_follow_up_other by keys_ne. rewrite Hty, Hti, Hit.
  change (str_eqb (lit "list") (lit "text")) with false.
  change (str_eqb (lit "list") (lit "list")) with true. cbv iota.
  eexists _, _. split; [reflexivity|]. split; [|split; [|split; [|split]]].
  - rewrite !lookup_insert_ne by keys_ne. by rewrite normalize_follow_up_other by keys_ne.
  - by rewrite lookup_insert_eq.
  - by rewrite length_fmap.
  - intros i item Hi. rewrite list_lookup_fmap, Hi. simpl. f_equal.
    destruct item; reflexivity.
  - intros item' (item & -> & _)%list_elem_of_fmap. apply normalize_item_stripped.
Qed.

(** The fourth scenario of the specification, with an object and an array
    beside the number. *)
Lemma list_items_degrade_witness :
  exists o' items',
    parseAndValidateAIResponse
      (js "{~type~:~list~,~title~:~X~,~items~:[42,{~point~:~**Plan**~,~detail~:7},[1]]}")
      (lit "OpenRouter") = Return (JObj o')
    /\ o' !! lit "items" = Some (JArr items')
    /\ items' = [item_of (lit "N/A") (lit "Invalid item structure");
                 item_of (lit "Plan") (lit "N/A");
                 item_of (lit "N/A") (lit "N/A")].
Proof.
  destruct (list_items_degrade
              (js "{~type~:~list~,~title~:~X~,~items~:[42,{~point~:~**Plan**~,~detail~:7},[1]]}")
              (lit "OpenRouter")
              (list_to_map
                 [(lit "type", JStr (lit "list")); (lit "title", JStr (lit "X"));
                  (lit "items",
                   JArr [num 42;
                         obj [(lit "point", JStr (lit "**Plan**")); (lit "detail", num 7)];
                         JArr [num 1]])])
              (lit "X")
              [num 42;
               obj [(lit "point", JStr (lit "**Plan**")); (lit "detail", num 7)];
               JArr [num 1]])
    as (o' & items' & Hr & _ & Hi & Hl & Hall & _);
    [vm_compute; reflexivity..|].
  exists o', items'. split; [exact Hr|]. split; [exact Hi|].
  destruct items' as [|a [|b [|c [|]]]]; try discriminate Hl.
  pose proof (Hall 0%nat _ eq_refl) as H0.
  pose proof (Hall 1%nat _ eq_refl) as H1.
  pose proof (Hall 2%nat _ eq_refl) as H2.
  vm_compute in H0, H1, H2. injection H0 as ->. injection H1 as ->. injection H2 as ->.
  vm_compute. reflexivity.
Defined.

(** C2 (as stated) fails on an element that is an array: it is not a JSON
    object, yet it does not become the item N/A, Invalid item structure. *)
Lemma array_item_not_invalid :
  JSON_parse (extract (js "{~type~:~list~,~title~:~X~,~items~:[[1]]}"))
  = Some (obj [(lit "type", JStr (lit "list")); (lit "title", JStr (lit "X"));
               (lit "items", JArr [JArr [num 1]])])
  /\ parseAndValidateAIResponse (js "{~type~:~list~,~title~:~X~,~items~:[[1]]}")
       (lit "OpenRouter")
     = Return (obj [(lit "type", JStr (lit "list")); (lit "title", JStr (lit "X"));
                    (lit "items", JArr [item_of (lit "N/A") (lit "N/A")])])
  /\ item_of (lit "N/A") (lit "N/A")
     <> item_of (lit "N/A") (lit "Invalid item structure").
Proof.
  split; [vm_compute; reflexivity|]. split; [vm_compute; reflexivity|].
  intros H. apply (f_equal (fun r => get r (lit "detail"))) in H.
  vm_compute in H. discriminate H.
Qed.

(** C5 (as amended). A text that, after trimming and fence extraction, does
    not parse to a JSON object always yields an error response that names
    the provider. The code is PV01 when the text is not JSON at all; when it
    is JSON but not an object (a number, a string, a boolean, null or an
    array) the code is PV02. *)
Theorem unparsable_is_PV01 raw source :
  (forall o, JSON_parse (extract raw) <> Some (JObj o)) ->
  parseAndValidateAIResponse raw source
  = Return (error_response
              match JSON_parse (extract raw) with
              | None =>
                  lit "AI service response from " ++ source
                  ++ lit " was not valid JSON. (E:PV01_" ++ source ++ lit ")"
              | Some _ =>
                  lit "AI response from " ++ source
                  ++ lit " invalid structure. (E:PV02_" ++ source ++ lit ")"
              end).
Proof.
  intros H. unfold parseAndValidateAIResponse.
  destruct (JSON_parse (extract raw)) as [v|]; [|done].
  destruct v; try reflexivity. by destruct (H m).
Qed.

(** The third scenario of the specification. *)
Lemma unparsable_is_PV01_witness :
  parseAndValidateAIResponse (lit "not json at all") (lit "OpenRouter")
  = Return (error_response
              (lit "AI service response from OpenRouter was not valid JSON. (E:PV01_OpenRouter)")).
Proof.
  rewrite (unparsable_is_PV01 (lit "not json at all") (lit "OpenRouter")).
  - vm_compute. reflexivity.
  - vm_compute. congruence.
Defined.

(** C5 (as stated) fails on a text that is JSON but not an object: the
    number 42 is answered with PV02, not PV01. *)
Lemma number_is_PV02 :
  JSON_parse (extract (lit "42")) = Some (num 42)
  /\ parseAndValidateAIResponse (lit "42") (lit "OpenRouter")
     = Return (error_response
                 (lit "AI response from OpenRouter invalid structure. (E:PV02_OpenRouter)"))
  /\ parseAndValidateAIResponse (lit "42") (lit "OpenRouter")
     <> Return (error_response (PV01 (lit "OpenRouter"))).
Proof.
  split; [vm_compute; reflexivity|]. split; [vm_compute; reflexivity|].
  vm_compute. congruence.
Qed.

(** ** Calls and their traces *)

Lemma after_refl st : after st [] st.
Proof. unfold after. by rewrite app_nil_r. Qed.

Lemma after_emit st e :
  after st [e] {| trace := trace st ++ [e]; isConnected := isConnected st;
                  history := history st |}.
Proof. done. Qed.

Lemma after_trans st tl st' tl' st'' :
  after st tl st' -> after st' tl' st'' -> after st (tl ++ tl') st''.
Proof.
  unfold after. intros (-> & -> & ->) (-> & -> & ->). by rewrite app_assoc.
Qed.

Lemma after_cons st e tl st' :
  after {| trace := trace st ++ [e]; isConnected := isConnected st;
           history := history st |} tl st' ->
  after st (e :: tl) st'.
Proof.
  intros H. change (e :: tl) with ([e] ++ tl).
  eapply after_trans; [apply after_emit|exact H].
Qed.

Lemma quiet_ret {A} P (a : A) : quiet P (ret a).
Proof. intros st o st' [= <- <-]. exists []. split; [constructor|apply after_refl]. Qed.

Lemma quiet_throw {A} P e : quiet P (@throw A e).
Proof. intros st o st' [= <- <-]. exists []. split; [constructor|apply after_refl]. Qed.

Lemma quiet_lift {A} P (o : outcome A) : quiet P (lift o).
Proof. intros st o' st' [= <- <-]. exists []. split; [constructor|apply after_refl]. Qed.

Lemma quiet_emit (P : event -> Prop) e : P e -> quiet P (emit e).
Proof.
  intros He st o st' [= <- <-]. exists [e].
  split; [by repeat constructor|apply after_emit].
Qed.

Lemma quiet_bind {A B} P (m : M A) (f : A -> M B) :
  quiet P m -> (forall a, quiet P (f a)) -> quiet P (bind m f).
Proof.
  intros Hm Hf st o st'. unfold bind. destruct (m st) as [[a|e] st1] eqn:E.
  - intros H. destruct (Hm _ _ _ E) as (tl1 & F1 & A1).
    destruct (Hf a _ _ _ H) as (tl2 & F2 & A2).
    exists (tl1 ++ tl2). split; [by apply Forall_app|by eapply after_trans].
  - intros [= <- <-]. eauto.
Qed.

Lemma quiet_try_catch {A} P (m : M A) (h : jsstring -> M A) :
  quiet P m -> (forall e, quiet P (h e)) -> quiet P (try_catch m h).
Proof.
  intros Hm Hh st o st'. unfold try_catch. destruct (m st) as [[a|e] st1] eqn:E.
  - intros [= <- <-]. eauto.
  - intros H. destruct (Hm _ _ _ E) as (tl1 & F1 & A1).
    destruct (Hh e _ _ _ H) as (tl2 & F2 & A2).
    exists (tl1 ++ tl2). split; [by apply Forall_app|by eapply after_trans].
Qed.

Lemma invocations_network tl : Forall is_network tl -> invocations tl = [].
Proof.
  induction 1 as [|e tl He _ IH]; [done|]. unfold invocations in *. simpl.
  destruct e; simpl in *; done.
Qed.

Lemma invocations_primary q m tl :
  Forall is_network tl -> invocations (EvAttemptOpenRouter q m :: tl) = [Primary].
Proof.
  intros F. change ([Primary]) with (Primary :: []).
  rewrite <- (invocations_network tl F). done.
Qed.

Lemma invocations_both q m tl q' tl' :
  Forall is_network tl -> Forall is_network tl' ->
  invocations ((EvAttemptOpenRouter q m :: tl) ++ EvGetAnswerFromGoogleAI q' :: tl')
  = [Primary; Secondary].
Proof.
  intros F F'. unfold invocations. rewrite omap_app.
  change (omap invocation (EvAttemptOpenRouter q m :: tl))
    with (invocations (EvAttemptOpenRouter q m :: tl)).
  rewrite (invocations_primary _ _ _ F).
  change (omap invocation (EvGetAnswerFromGoogleAI q' :: tl'))
    with (Secondary :: invocations tl').
  by rewrite (invocations_network tl' F').
Qed.

(** ** The orchestrator *)

Section Orchestrator.

Variable cfg : Config.
Variable world : World.

(** A run of the primary adapter enters it once and then only talks to the
    network. *)
Lemma attemptOpenRouter_calls q m st o st' :
  attemptOpenRouter cfg world q m st = (o, st') ->
  exists tl, Forall is_network tl /\ after st (EvAttemptOpenRouter q m :: tl) st'.
Proof.
  unfold attemptOpenRouter. unfold bind at 1. unfold emit at 1. intros H.
  match type of H with ?m _ = _ => assert (quiet is_network m) as Q end.
  { destruct (negb _); [apply quiet_throw|].
    apply quiet_try_catch; [|intros; apply quiet_throw].
    apply quiet_bind; [by apply quiet_emit|intros _].
    apply quiet_bind; [apply quiet_lift|intros data].
    destruct (opt_get _ _) as [[| | |raw| |]|]; try apply quiet_throw.
    destruct (_ || _); [apply quiet_throw|apply quiet_lift]. }
  destruct (Q _ _ _ H) as (tl & F & Af). exists tl. split; [done|by apply after_cons].
Qed.

Lemma getAnswerFromGoogleAI_calls q st o st' :
  getAnswerFromGoogleAI cfg world q st = (o, st') ->
  exists tl, Forall is_network tl /\ after st (EvGetAnswerFromGoogleAI q :: tl) st'.
Proof.
  unfold getAnswerFromGoogleAI. unfold bind at 1. unfold emit at 1. intros H.
  match type of H with ?m _ = _ => assert (quiet is_network m) as Q end.
  { destruct (negb _); [apply quiet_throw|].
    apply quiet_try_catch; [|intros; apply quiet_throw].
    apply quiet_bind; [by apply quiet_emit|intros _].
    apply quiet_bind; [apply quiet_lift|intros raw].
    destruct (_ || _); [apply quiet_throw|apply quiet_lift]. }
  destruct (Q _ _ _ H) as (tl & F & Af). exists tl. split; [done|by apply after_cons].
Qed.

(** The secondary adapter returns only what the validator made of the text
    Google AI sent, under the label GoogleAI. *)
Lemma google_success q st r st' :
  getAnswerFromGoogleAI cfg world q st = (Return r, st') ->
  GOOGLE_AI_API_KEY cfg <> []
  /\ exists raw,
       generateContent world (GOOGLE_AI_API_KEY cfg) generationParams
         (fullPromptForGoogleAI cfg q) = Return raw
       /\ parseAndValidateAIResponse raw (lit "GoogleAI") = Return r.
Proof.
  unfold getAnswerFromGoogleAI, bind, try_catch, emit, throw, lift. simpl.
  destruct (GOOGLE_AI_API_KEY cfg) as [|c key] eqn:K; simpl; [done|].
  destruct (generateContent world _ _ _) as [raw|e]; simpl; [|done].
  destruct (_ || _); simpl; [done|].
  destruct (parseAndValidateAIResponse raw _) as [r'|e] eqn:V; simpl; [|done].
  intros [= <- <-]. split; [done|]. by exists raw.
Qed.

Lemma openrouter_success q m st r st' :
  attemptOpenRouter cfg world q m st = (Return r, st') ->
  exists raw, parseAndValidateAIResponse raw (lit "OpenRouter") = Return r.
Proof.
  unfold attemptOpenRouter, bind, try_catch, emit, throw, lift. simpl.
  destruct (OPENROUTER_API_KEY cfg) as [|c key]; simpl; [done|].
  destruct (axios_post world _ _ _) as [data|e]; simpl; [|done].
  destruct (opt_get _ _) as [[| | |raw| |]|]; simpl; try done.
  destruct (_ || _); simpl; [done|].
  destruct (parseAndValidateAIResponse raw _) as [r'|e] eqn:V; simpl; [|done].
  intros [= <- <-]. by exists raw.
Qed.

(** C3. In a run that passes the pre-flight checks the adapters are entered
    in the order primary, or primary then secondary: the primary exactly
    once and first, the secondary at most once. The secondary is entered
    only if its key is configured and the primary call has thrown. When the
    primary throws and the secondary returns, the run returns what the
    secondary returned, which is the validator's reading, under the label
    GoogleAI, of the text Google AI sent. *)
Theorem fallback_ordering q st :
  commonPreChecks cfg = None ->
  exists new o st',
    getAnswerFromLLM cfg world q st = (o, st')
    /\ trace st' = trace st ++ new
    /\ (invocations new = [Primary] \/ invocations new = [Primary; Secondary])
    /\ (Secondary ∈ invocations new ->
        GOOGLE_AI_API_KEY cfg <> []
        /\ exists e st1,
             attemptOpenRouter cfg world q DEFAULT_OPENROUTER_MODEL st = (Throw e, st1))
    /\ (forall e st1 r st2,
          attemptOpenRouter cfg world q DEFAULT_OPENROUTER_MODEL st = (Throw e, st1) ->
          getAnswerFromGoogleAI cfg world q st1 = (Return r, st2) ->
          o = Return r /\ st' = st2
          /\ exists raw,
               generateContent world (GOOGLE_AI_API_KEY cfg) generationParams
                 (fullPromptForGoogleAI cfg q) = Return raw
               /\ parseAndValidateAIResponse raw (lit "GoogleAI") = Return r).
Proof.
  intros Hpre. unfold getAnswerFromLLM, try_catch. rewrite Hpre.
  destruct (attemptOpenRouter cfg world q DEFAULT_OPENROUTER_MODEL st)
    as [[r1|e1] st1] eqn:E1;
    destruct (attemptOpenRouter_calls _ _ _ _ _ E1) as (tl1 & F1 & (T1 & _ & _)).
  { exists (EvAttemptOpenRouter q DEFAULT_OPENROUTER_MODEL :: tl1), (Return r1), st1.
    split; [done|]. split; [done|]. rewrite (invocations_primary _ _ _ F1).
    split; [by left|]. split; [|done]. intros H. by apply list_elem_of_singleton in H. }
  destruct (GOOGLE_AI_API_KEY cfg) as [|c key] eqn:K; simpl.
  { exists (EvAttemptOpenRouter q DEFAULT_OPENROUTER_MODEL :: tl1),
      (Return (error_response (F02 e1))), st1.
    split; [done|]. split; [done|]. rewrite (invocations_primary _ _ _ F1).
    split; [by left|]. split; [intros H; by apply list_elem_of_singleton in H|].
    intros e st1' r st2 [= <- <-] G. apply google_success in G as [G _].
    by rewrite K in G. }
  destruct (getAnswerFromGoogleAI cfg world q st1) as [o2 st2] eqn:E2.
  destruct (getAnswerFromGoogleAI_calls _ _ _ _ E2) as (tl2 & F2 & (T2 & _ & _)).
  exists ((EvAttemptOpenRouter q DEFAULT_OPENROUTER_MODEL :: tl1)
            ++ EvGetAnswerFromGoogleAI q :: tl2).
  rewrite (invocations_both _ _ _ _ _ F1 F2).
  assert (trace st2 = trace st ++ (EvAttemptOpenRouter q DEFAULT_OPENROUTER_MODEL :: tl1)
                        ++ EvGetAnswerFromGoogleAI q :: tl2) as T.
  { by rewrite T2, T1, <- app_assoc. }
  destruct o2 as [r2|e2].
  - exists (Return r2), st2. split; [done|]. split; [done|]. split; [by right|].
    split; [intros _; split; [done|eauto]|].
    intros e st1' r st2' [= <- <-] G. rewrite E2 in G. injection G as <- <-.
    split; [done|]. split; [done|]. apply google_success in E2 as [_ ?].
    by rewrite <- K.
  - exists (Return (error_response (F01 e2))), st2. split; [done|]. split; [done|].
    split; [by right|]. split; [intros _; split; [done|eauto]|].
    intros e st1' r st2' [= <- <-] G. by rewrite E2 in G.
Qed.

(** C7. With no key at all the orchestrator returns the CFG00 error, and
    with a key but an empty effective knowledge document the CFG02 error,
    both at once: the state, and with it the trace of calls, is the one it
    started in. A missing Google AI key alone passes the checks. *)
Theorem prechecks_fail_fast q st :
  (OPENROUTER_API_KEY cfg = [] -> GOOGLE_AI_API_KEY cfg = [] ->
   getAnswerFromLLM cfg world q st
   = (Return (error_response
                (lit "Critical Error: AI service API key(s) missing. Contact support. (E:CFG00)")),
      st))
  /\ (OPENROUTER_API_KEY cfg <> [] \/ GOOGLE_AI_API_KEY cfg <> [] ->
      effectiveKnowledgeBase cfg = [] ->
      getAnswerFromLLM cfg world q st
      = (Return (error_response
                   (lit "Critical Error: Knowledge base unavailable. Contact support. (E:CFG02)")),
         st))
  /\ (OPENROUTER_API_KEY cfg <> [] -> GOOGLE_AI_API_KEY cfg = [] ->
      effectiveKnowledgeBase cfg <> [] -> commonPreChecks cfg = None).
Proof.
  unfold getAnswerFromLLM, commonPreChecks. repeat split.
  - intros -> ->. reflexivity.
  - intros Hk ->. destruct (OPENROUTER_API_KEY cfg), (GOOGLE_AI_API_KEY cfg);
      simpl; try done. by destruct Hk.
  - intros Hk _ Hd. destruct (OPENROUTER_API_KEY cfg); [done|].
    destruct (effectiveKnowledgeBase cfg); done.
Qed.

Lemma getAnswerFromLLM_quiet q : quiet is_call (getAnswerFromLLM cfg world q).
Proof.
  assert (forall m, quiet is_call (attemptOpenRouter cfg world q m)) as Q1.
  { intros m st o st' H. destruct (attemptOpenRouter_calls _ _ _ _ _ H) as (tl & F & Af).
    eexists. split; [|exact Af]. constructor; [done|].
    eapply Forall_impl; [exact F|]. by intros []. }
  assert (quiet is_call (getAnswerFromGoogleAI cfg world q)) as Q2.
  { intros st o st' H. destruct (getAnswerFromGoogleAI_calls _ _ _ _ H) as (tl & F & Af).
    eexists. split; [|exact Af]. constructor; [done|].
    eapply Forall_impl; [exact F|]. by intros []. }
  unfold getAnswerFromLLM. destruct (commonPreChecks cfg); [apply quiet_ret|].
  apply quiet_try_catch; [apply Q1|]. intros e.
  destruct (truthy _); [|apply quiet_ret].
  apply quiet_try_catch; [apply Q2|]. intros e'. apply quiet_ret.
Qed.

(** X4. The orchestrator never throws, whatever the providers and the
    validator do, and what it returns has a legal [type]. *)
Theorem orchestrator_total q st :
  exists r st', getAnswerFromLLM cfg world q st = (Return r, st') /\ legal_kind r.
Proof.
  unfold getAnswerFromLLM, try_catch, ret, commonPreChecks.
  destruct (_ && _); [eexists _, _; split; [done|apply legal_error]|].
  destruct (negb _); [eexists _, _; split; [done|apply legal_error]|].
  destruct (attemptOpenRouter _ _ _ _ _) as [[r|e] st1] eqn:E1.
  { exists r, st1. split; [done|]. apply openrouter_success in E1 as [raw V].
    by eapply validated_legal. }
  destruct (truthy _); [|eexists _, _; split; [done|apply legal_error]].
  destruct (getAnswerFromGoogleAI _ _ _ _) as [[r|e'] st2] eqn:E2.
  - exists r, st2. split; [done|]. apply google_success in E2 as (_ & raw & _ & V).
    by eapply validated_legal.
  - eexists _, _; split; [done|apply legal_error].
Qed.

Lemma orchestrator_returns q st :
  exists r st', getAnswerFromLLM cfg world q st = (Return r, st').
Proof.
  unfold getAnswerFromLLM, try_catch, ret. destruct (commonPreChecks cfg); [eauto|].
  destruct (attemptOpenRouter _ _ _ _ _) as [[r|e] st1]; [eauto|].
  destruct (truthy _); [|eauto].
  destruct (getAnswerFromGoogleAI _ _ _ _) as [[r|e'] st2]; eauto.
Qed.

Lemma ensureDbConnection_spec st :
  exists st', ensureDbConnection cfg world st = (Return tt, st')
    /\ (exists tl, trace st' = trace st ++ tl /\ Forall is_call tl)
    /\ history st' = history st.
Proof.
  unfold ensureDbConnection, connectToDatabase, bind, get_connected, try_catch,
    set_connected, lift, ret, emit. simpl.
  assert (exists tl, trace st = trace st ++ tl /\ Forall is_call tl) as Same.
  { exists []. by rewrite app_nil_r. }
  destruct (isConnected st) eqn:C; simpl; [eauto|].
  destruct (MONGODB_URI cfg) as [[|c uri]|]; simpl; [eauto| |eauto].
  rewrite C. destruct (mongoose_connect world _); simpl; [|eauto].
  eexists. split; [done|]. split; [|done]. simpl. rewrite <- !app_assoc. simpl.
  eexists. split; [done|]. by repeat constructor.
Qed.

End Orchestrator.

(** OpenRouter times out, Google AI answers: both adapters are entered, in
    this order, and the answer is the validated text of Google AI. *)
Lemma fallback_ordering_witness :
  exists st',
    getAnswerFromLLM demo_cfg demo_world (lit "What is a SAFE?") demo_state
    = (Return (obj [(lit "type", JStr (lit "text"));
                    (lit "answer",
                     JStr (lit "A SAFE is a Simple Agreement for Future Equity."));
                    (lit "follow_up", JNull)]), st')
    /\ invocations (trace st') = [Primary; Secondary].
Proof.
  destruct (fallback_ordering demo_cfg demo_world (lit "What is a SAFE?") demo_state)
    as (new & o & st' & E & T & _ & _ & _); [vm_compute; reflexivity|].
  exists st'. vm_compute in E. injection E as <- <-. split; vm_compute; reflexivity.
Defined.

(** ** The request handler *)

Lemma type_is_exclusive r :
  type_is r (lit "error") = true ->
  type_is r (lit "text") = false /\ type_is r (lit "list") = false.
Proof.
  unfold type_is. destruct (get r _) as [[]|]; try done.
  unfold str_eqb. intros ->%bool_decide_eq_true. done.
Qed.

Lemma question_dec req :
  (exists q, valid_question req q) \/ (forall q, ~ valid_question req q).
Proof.
  unfold valid_question.
  destruct (body_question req) as [[| | |q| |]|]; try (right; by intros q' [[=] _]).
  destruct (decide (q = [])) as [->|]; [right; by intros q' [[= <-] [? _]]|].
  destruct (decide (trim q = [])) as [E|]; [right; by intros q' [[= <-] [_ ?]]|].
  left. by exists q.
Qed.

(** A request without a usable question is answered 400 and nothing else
    happens. *)
Lemma ask_handler_rejects cfg world req st :
  (forall q, ~ valid_question req q) ->
  ask_handler cfg world req st = (Return bad_request, st).
Proof.
  intros H. unfold ask_handler.
  destruct (body_question req) as [[| | |q| |]|] eqn:Q; try reflexivity.
  destruct (negb _ || _) eqn:E; [reflexivity|]. destruct (H q).
  apply orb_false_iff in E as [E1 E2]. split; [done|]. split.
  - by destruct q.
  - intros Ht. unfold str_eqb in E2. by rewrite Ht in E2.
Qed.

(** A request with a question is answered 200 with what the orchestrator
    returned; the history write is tried when [should_save] says so, and
    whether it goes through shows in the history only. *)
Lemma ask_handler_answers cfg world req q st :
  valid_question req q ->
  exists st1 r st2,
    ensureDbConnection cfg world st = (Return tt, st1)
    /\ getAnswerFromLLM cfg world q st1 = (Return r, st2)
    /\ ask_handler cfg world req st
       = (Return {| status := 200; body := r |},
          if should_save req r then
            {| trace := trace st2 ++ [EvSave (entry_of world req q r)];
               isConnected := isConnected st2;
               history :=
                 match save_entry world (entry_of world req q r) with
                 | Return _ => history st2 ++ [entry_of world req q r]
                 | Throw _ => history st2
                 end |}
          else st2).
Proof.
  intros (Q & Hq & Ht).
  destruct (ensureDbConnection_spec cfg world st) as (st1 & E1 & _).
  destruct (orchestrator_returns cfg world q st1) as (r & st2 & E2).
  exists st1, r, st2. split; [done|]. split; [done|].
  unfold ask_handler. rewrite Q.
  replace (negb _ || _) with false.
  2:{ symmetry. apply orb_false_iff. split; [by destruct q|].
      unfold str_eqb. by apply bool_decide_eq_false. }
  unfold try_catch at 1. unfold bind at 1. rewrite E1.
  unfold bind at 1. rewrite E2. unfold bind at 1.
  fold (should_save req r). destruct (should_save req r); [|reflexivity].
  unfold try_catch, save, bind, emit, lift, ret. simpl.
  fold (entry_of world req q r).
  destruct (save_entry world (entry_of world req q r)) as [[]|e]; reflexivity.
Qed.

Lemma same_services cfg world f q :
  getAnswerFromLLM cfg (with_save_entry world f) q = getAnswerFromLLM cfg world q
  /\ ensureDbConnection cfg (with_save_entry world f) = ensureDbConnection cfg world.
Proof. split; reflexivity. Qed.

(** C8. The handler always answers. Its run leaves the history as it was or
    appends one entry, and it appends only for a signed-in user, with the
    response it returns, when that response is a text or a list. When the
    response is an error, or no user is signed in, the history is unchanged
    and no write is even tried. Whatever the history write does, succeed or
    throw, the response is the same. *)
Theorem history_best_effort cfg world req st :
  exists rsp st',
    ask_handler cfg world req st = (Return rsp, st')
    /\ (history st' = history st
        \/ exists entry,
             history st' = history st ++ [entry]
             /\ auth_userId req = Some (userId entry) /\ userId entry <> []
             /\ llmResponse entry = body rsp /\ status rsp = 200%nat
             /\ (type_is (body rsp) (lit "text") = true
                 \/ type_is (body rsp) (lit "list") = true))
    /\ (type_is (body rsp) (lit "error") = true
        \/ truthy (JStr <$> auth_userId req) = false ->
        history st' = history st
        /\ forall entry, EvSave entry ∉ drop (length (trace st)) (trace st'))
    /\ forall f, (ask_handler cfg (with_save_entry world f) req st).1 = Return rsp.
Proof.
  destruct (question_dec req) as [[q Hq]|Hno].
  2:{ exists bad_request, st. split; [by apply ask_handler_rejects|].
      split; [by left|]. split.
      - intros _. split; [done|]. intros entry. rewrite drop_all. apply not_elem_of_nil.
      - intros f. by rewrite ask_handler_rejects. }
  destruct (ask_handler_answers cfg world req q st Hq) as (st1 & r & st2 & E1 & E2 & E).
  destruct (ensureDbConnection_spec cfg world st) as (st1' & E1' & (tl1 & T1 & F1) & H1).
  rewrite E1 in E1'. injection E1' as <-.
  destruct (getAnswerFromLLM_quiet cfg world q _ _ _ E2) as (tl & F & T2 & _ & H2).
  eexists _, _. split; [exact E|]. simpl. split; [|split].
  - destruct (should_save req r) eqn:S; [|left; congruence]. simpl.
    destruct (save_entry world _); [|left; congruence]. right.
    exists (entry_of world req q r). unfold should_save in S.
    apply andb_true_iff in S as [U K]. apply orb_true_iff in K.
    unfold entry_of. destruct (auth_userId req) as [[|c u]|]; try done. simpl.
    rewrite H2, H1. done.
  - intros Hor. assert (should_save req r = false) as ->.
    { unfold should_save. destruct Hor as [He| ->]; [|done].
      apply type_is_exclusive in He as [-> ->]. apply andb_false_r. }
    split; [congruence|]. intros entry. rewrite T2, T1, <- app_assoc, drop_app_length.
    intros Hin. apply elem_of_app in Hin as [Hin|Hin].
    + eapply Forall_forall in F1; [|exact Hin]. done.
    + eapply Forall_forall in F; [|exact Hin]. done.
  - intros f.
    destruct (ask_handler_answers cfg (with_save_entry world f) req q st Hq)
      as (st1f & rf & st2f & E1f & E2f & Ef).
    destruct (same_services cfg world f q) as [Sg Se]. rewrite Se in E1f.
    rewrite Sg in E2f. rewrite E1 in E1f. injection E1f as <-.
    rewrite E2 in E2f. injection E2f as <- <-. by rewrite Ef.
Qed.

(** The write of the history entry throws in [demo_world]: the answer goes
    out all the same, and the history stays empty. *)
Example history_write_fails :
  exists st',
    ask_handler demo_cfg demo_world demo_request demo_state
    = (Return {| status := 200;
                 body := obj [(lit "type", JStr (lit "text"));
                              (lit "answer",
                               JStr (lit "A SAFE is a Simple Agreement for Future Equity."));
                              (lit "follow_up", JNull)] |}, st')
    /\ history st' = [].
Proof. eexists. split; vm_compute; reflexivity. Qed.

(** ** Markdown bold *)

Lemma startsWith_app s p : startsWith (p ++ s) p = true.
Proof. induction p as [|c p IH]; simpl; [by destruct s|]. by rewrite N.eqb_refl. Qed.

Lemma rmatch_lit {A} p r s cap (k : jsstring -> option jsstring -> option A) :
  rmatch (RSeq (RLit p) r) (p ++ s) cap k = rmatch r s cap k.
Proof.
  induction p as [|c p IH]; [done|]. simpl in *. by rewrite N.eqb_refl.
Qed.

Lemma rmatch_lit_end {A} p s cap (k : jsstring -> option jsstring -> option A) :
  rmatch (RLit p) (p ++ s) cap k = k s cap.
Proof.
  induction p as [|c p IH]; [done|]. simpl in *. by rewrite N.eqb_refl.
Qed.

Lemma rmatch_lit_end_fail {A} p s cap (k : jsstring -> option jsstring -> option A) :
  startsWith s p = false -> rmatch (RLit p) s cap k = None.
Proof.
  revert s. induction p as [|c p IH]; intros s H; [by destruct s|].
  destruct s as [|x s]; [done|]. simpl in H |- *.
  destruct (x =? c); [|done]. apply (IH s H).
Qed.

Lemma star_lazy_skip {A} p (k : jsstring -> option A) x t :
  Forall (fun c => p c = true) x ->
  (forall x1 x2, x = x1 ++ x2 -> x2 <> [] -> k (x2 ++ t) = None) ->
  star_lazy p k (x ++ t) = star_lazy p k t.
Proof.
  induction x as [|c x IH]; intros F H; [done|].
  inversion F as [|? ? Hc F']; subst.
  change ((c :: x) ++ t) with (c :: (x ++ t)).
  cbn [star_lazy]. change (c :: x ++ t) with ((c :: x) ++ t).
  rewrite (H [] (c :: x)) by done. rewrite Hc. apply IH; [done|].
  intros x1 x2 -> Hx. apply (H (c :: x1) x2); done.
Qed.

Lemma star_greedy_app {A} p (k : jsstring -> option A) w u a :
  Forall (fun c => p c = true) w ->
  star_greedy p k u = Some a -> star_greedy p k (w ++ u) = Some a.
Proof.
  induction 1 as [|c w Hc F IH]; [done|]. intros Hu. simpl. rewrite Hc.
  by rewrite (IH Hu).
Qed.

Lemma contains_false_cons c s p :
  contains (c :: s) p = false -> startsWith (c :: s) p = false /\ contains s p = false.
Proof. simpl. by intros [? ?]%orb_false_iff. Qed.

Lemma replace_no_match p r s :
  p <> [] -> contains s p = false -> replace_group1 (RSeq (RLit p) r) s 0 = s.
Proof.
  intros Hp. induction s as [|c s IH]; intros H.
  - simpl. unfold regex_exec. rewrite rmatch_lit_fail; [done|]. by destruct p.
  - apply contains_false_cons in H as [H1 H2].
    cbn [replace_group1]. unfold regex_exec. rewrite rmatch_lit_fail by done.
    by rewrite IH.
Qed.

(** X5. A text that contains neither two asterisks in a row nor two
    underscores in a row comes back from [removeMarkdownBold] as it is:
    single markers, as in a product or a snake_case name, are kept. *)
Theorem removeMarkdownBold_plain t :
  contains t (lit "**") = false -> contains t (lit "__") = false ->
  removeMarkdownBold t = t.
Proof.
  intros H1 H2. unfold removeMarkdownBold, bold_stars, bold_underscores.
  rewrite (replace_no_match (lit "**")) by done.
  by rewrite (replace_no_match (lit "__")).
Qed.

Lemma removeMarkdownBold_plain_witness :
  removeMarkdownBold (lit "2 * 3 = 6, snake_case") = lit "2 * 3 = 6, snake_case".
Proof. apply removeMarkdownBold_plain; reflexivity. Defined.

(** A match consumes a prefix; a new capture is a part of that prefix. *)
Lemma rmatch_capture {A} r :
  forall s cap (k : jsstring -> option jsstring -> option A) a,
    rmatch r s cap k = Some a ->
    exists pre s' cap',
      s = pre ++ s' /\ k s' cap' = Some a
      /\ (cap' = cap \/ exists c, cap' = Some c /\ c `sublist_of` pre).
Proof.
  induction r as [| c | r1 IH1 r2 IH2 | r IH | p | p | r IH |]; simpl; intros s cap k a H.
  - exists [], s, cap. eauto.
  - destruct s as [|x s]; [done|]. destruct (x =? c); [|done].
    exists [x], s, cap. eauto.
  - apply IH1 in H as (pre1 & s1 & cap1 & -> & H & C1).
    apply IH2 in H as (pre2 & s2 & cap2 & -> & H & C2).
    exists (pre1 ++ pre2), s2, cap2. rewrite <- app_assoc.
    split; [done|]. split; [done|].
    destruct C2 as [->|(c & -> & Hc)].
    + destruct C1 as [->|(c & -> & Hc)]; [by left|right].
      exists c. split; [done|]. by apply sublist_inserts_r.
    + right. exists c. split; [done|]. by apply sublist_inserts_l.
  - destruct (rmatch r s cap k) as [b|] eqn:E.
    + apply IH in E as (pre & s' & cap' & -> & Hk & C).
      exists pre, s', cap'. split; [done|]. split; [congruence|done].
    + exists [], s, cap. eauto.
  - apply star_greedy_sound in H as (pre & s' & -> & Hk). exists pre, s', cap. eauto.
  - apply star_lazy_sound in H as (pre & s' & -> & Hk). exists pre, s', cap. eauto.
  - apply IH in H as (pre & s' & cap' & -> & Hk & _).
    exists pre, s', (Some (take (length (pre ++ s') - length s') (pre ++ s'))).
    split; [done|]. split; [done|]. right. eexists. split; [done|].
    rewrite length_app.
    replace (length pre + length s' - length s')%nat with (length pre) by lia.
    by rewrite take_app_length.
  - destruct s; [|done]. exists [], [], cap. eauto.
Qed.

Lemma regex_exec_capture r s rest cap :
  regex_exec r s = Some (rest, cap) ->
  exists pre, s = pre ++ rest /\ default [] cap `sublist_of` pre.
Proof.
  unfold regex_exec. intros H.
  apply rmatch_capture in H as (pre & s' & cap' & -> & [= <- <-] & C).
  exists pre. split; [done|]. destruct C as [->|(c & -> & Hc)]; [apply sublist_nil_l|done].
Qed.

Lemma replace_group1_sublist r s :
  forall n, replace_group1 r s n `sublist_of` drop n s.
Proof.
  induction s as [|c s IH]; intros n.
  - simpl. destruct n; [|by rewrite drop_nil].
    destruct (regex_exec r []) as [[rest cap]|] eqn:E; [|done].
    apply regex_exec_capture in E as (pre & Hs & Hc).
    symmetry in Hs. apply app_eq_nil in Hs as [-> ->]. done.
  - destruct n as [|n]; [|apply IH]. cbn [replace_group1 drop].
    destruct (regex_exec r (c :: s)) as [[rest cap]|] eqn:E.
    2:{ apply sublist_skip. apply (IH 0%nat). }
    apply regex_exec_capture in E as (pre & Hs & Hc). rewrite Hs, length_app.
    replace (length pre + length rest - length rest)%nat with (length pre) by lia.
    destruct pre as [|x pre]; simpl in *.
    + apply sublist_nil_r in Hc as ->. simpl. rewrite <- Hs.
      apply sublist_skip. apply (IH 0%nat).
    + injection Hs as <- ->. change (c :: pre ++ rest) with ((c :: pre) ++ rest).
      apply sublist_app; [done|].
      specialize (IH (length pre)). by rewrite drop_app_length in IH.
Qed.

(** X6. [removeMarkdownBold] only deletes: its result is the text with some
    code units left out, the others in their order. It adds and reorders
    nothing. *)
Theorem removeMarkdownBold_only_deletes t :
  removeMarkdownBold t `sublist_of` t.
Proof.
  unfold removeMarkdownBold. etrans.
  - apply (replace_group1_sublist _ _ 0%nat).
  - apply (replace_group1_sublist _ _ 0%nat).
Qed.

Lemma replace_group1_skip r pre s :
  replace_group1 r (pre ++ s) (length pre) = replace_group1 r s 0.
Proof. induction pre as [|c pre IH]; [done|]. simpl. apply IH. Qed.

Lemma free_contains m s : free_of m s -> contains s [m; m] = false.
Proof.
  induction 1 as [|c s Hc F IH]; [done|]. simpl.
  rewrite IH. by apply N.eqb_neq in Hc as ->.
Qed.

Lemma rmatch_group_lazy {A} p r2 s cap (k : jsstring -> option jsstring -> option A) :
  rmatch (RSeq (RGroup (RStarLazy p)) r2) s cap k
  = star_lazy p (fun s' => rmatch r2 s' (Some (take (length s - length s') s)) k) s.
Proof. reflexivity. Qed.

Lemma star_lazy_here {A} p (k : jsstring -> option A) s a :
  k s = Some a -> star_lazy p k s = Some a.
Proof. intros H. destruct s; simpl; by rewrite H. Qed.

Lemma bold_exec m x post :
  free_of m x -> Forall (fun c => dot c = true) x ->
  regex_exec (bold_pattern m) ([m; m] ++ x ++ [m; m] ++ post) = Some (post, Some x).
Proof.
  intros Fm Fd. unfold regex_exec, bold_pattern. rewrite rmatch_lit.
  rewrite rmatch_group_lazy.
  rewrite star_lazy_skip; [| done |].
  - apply star_lazy_here. rewrite rmatch_lit_end. rewrite !length_app.
    replace (length x + (length [m; m] + length post) - (length [m; m] + length post))%nat
      with (length x) by lia.
    by rewrite take_app_length.
  - intros x1 x2 -> Hx. apply rmatch_lit_end_fail.
    apply Forall_app in Fm as [_ Fm]. destruct x2 as [|c x2]; [done|].
    inversion Fm; subst. simpl. by apply N.eqb_neq in H1 as ->.
Qed.

Lemma replace_group1_match r c pre rest cap :
  regex_exec r (c :: pre ++ rest) = Some (rest, cap) ->
  replace_group1 r (c :: pre ++ rest) 0 = default [] cap ++ replace_group1 r rest 0.
Proof.
  intros E. cbn [replace_group1]. rewrite E. f_equal.
  replace (length (c :: pre ++ rest) - length rest)%nat with (S (length pre)).
  2:{ simpl. rewrite length_app. lia. }
  apply replace_group1_skip.
Qed.

Lemma replace_bold m pre x post :
  free_of m pre -> free_of m x -> free_of m post ->
  Forall (fun c => dot c = true) x ->
  replace_group1 (bold_pattern m) (pre ++ [m; m] ++ x ++ [m; m] ++ post) 0
  = pre ++ x ++ post.
Proof.
  intros Fp Fx Fo Fd. induction Fp as [|c pre Hc Fp IH].
  - pose proof (bold_exec m x post Fx Fd) as E.
    replace ([] ++ [m; m] ++ x ++ [m; m] ++ post)
      with (m :: (m :: x ++ [m; m]) ++ post) in *
      by (simpl; by rewrite <- app_assoc).
    replace ([m; m] ++ x ++ [m; m] ++ post)
      with (m :: (m :: x ++ [m; m]) ++ post) in E
      by (simpl; by rewrite <- app_assoc).
    rewrite (replace_group1_match _ _ _ _ _ E). simpl. f_equal.
    apply (replace_no_match [m; m]); [done|]. by apply free_contains.
  - change ((c :: pre) ++ ?s) with (c :: (pre ++ s)). cbn [replace_group1].
    unfold regex_exec at 1. unfold bold_pattern at 1.
    rewrite rmatch_lit_fail; [by rewrite IH|]. simpl. by apply N.eqb_neq in Hc as ->.
Qed.

(** X7. A bold span on one line loses its two markers and nothing else: when
    the text before, inside and after the span has no asterisk (and, after
    the removal, no pair of underscores), [pre**x**post] becomes [pre x post];
    and the same for a span between pairs of underscores in a text without
    an underscore elsewhere and without a pair of asterisks. *)
Theorem removeMarkdownBold_strips pre x post :
  Forall (fun c => dot c = true) x ->
  (free_of 42 pre /\ free_of 42 x /\ free_of 42 post
   /\ contains (pre ++ x ++ post) (lit "__") = false ->
   removeMarkdownBold (pre ++ lit "**" ++ x ++ lit "**" ++ post) = pre ++ x ++ post)
  /\ (free_of 95 pre /\ free_of 95 x /\ free_of 95 post
      /\ contains (pre ++ lit "__" ++ x ++ lit "__" ++ post) (lit "**") = false ->
      removeMarkdownBold (pre ++ lit "__" ++ x ++ lit "__" ++ post) = pre ++ x ++ post).
Proof.
  intros Fd. unfold removeMarkdownBold. split.
  - intros (Fp & Fx & Fo & Hu).
    change bold_stars with (bold_pattern 42). change (lit "**") with [42; 42].
    rewrite replace_bold by done.
    unfold bold_underscores. by apply (replace_no_match (lit "__")).
  - intros (Fp & Fx & Fo & Hs).
    unfold bold_stars. rewrite (replace_no_match (lit "**")) by done.
    change bold_underscores with (bold_pattern 95). change (lit "__") with [95; 95].
    by apply replace_bold.
Qed.

Lemma removeMarkdownBold_strips_witness :
  removeMarkdownBold (lit "a " ++ lit "**" ++ lit "b_c" ++ lit "**" ++ lit " d")
  = lit "a " ++ lit "b_c" ++ lit " d".
Proof.
  apply (proj1 (removeMarkdownBold_strips (lit "a ") (lit "b_c") (lit " d")
                  ltac:(by repeat constructor))).
  split_and!; [by repeat constructor..|reflexivity].
Defined.

(** ** Fences and white space around a response *)

Lemma trimEnd_white w : white w -> trimEnd w = [].
Proof. induction 1 as [|c w Hc F IH]; [done|]. simpl. by rewrite IH, Hc. Qed.

Lemma trimStart_white w s : white w -> trimStart (w ++ s) = trimStart s.
Proof. induction 1 as [|c w Hc F IH]; [done|]. simpl. by rewrite Hc. Qed.

Lemma trimEnd_app_white s w : white w -> trimEnd (s ++ w) = trimEnd s.
Proof.
  intros F. induction s as [|c s IH]; simpl; [by apply trimEnd_white|]. by rewrite IH.
Qed.

Lemma trim_app_white w0 x w3 : white w0 -> white w3 -> trim (w0 ++ x ++ w3) = trim x.
Proof.
  intros F0 F3. unfold trim. rewrite trimStart_white by done.
  induction x as [|c x IH]; simpl.
  - rewrite <- (app_nil_r w3) at 1. rewrite trimStart_white by done. done.
  - destruct (is_white_space c); [done|].
    change (c :: x ++ w3) with ((c :: x) ++ w3). by apply trimEnd_app_white.
Qed.

(** A text kept by [trimEnd] has no white tail. *)
Lemma trimEnd_fixed_tail a b :
  trimEnd (a ++ b) = a ++ b -> b <> [] -> ~ white b.
Proof.
  induction a as [|c a IH]; simpl; intros H Hb F.
  - rewrite trimEnd_white in H by done. by destruct b.
  - destruct (trimEnd (a ++ b)) as [|d r] eqn:E.
    + destruct (is_white_space c); [done|]. injection H as H.
      symmetry in H. apply app_eq_nil in H as [_ ->]. done.
    + injection H as H. by apply IH.
Qed.

Lemma trimEnd_black_end a c :
  is_white_space c = false -> trimEnd (a ++ [c]) = a ++ [c].
Proof.
  intros Hc. induction a as [|d a IH]; simpl; [by rewrite Hc|].
  rewrite IH. by destruct a.
Qed.

Lemma star_greedy_sound_white {A} p (k : jsstring -> option A) s a :
  star_greedy p k s = Some a ->
  exists pre s', s = pre ++ s' /\ Forall (fun c => p c = true) pre /\ k s' = Some a.
Proof.
  induction s as [|x s IH]; simpl; intros H.
  - by exists [], [].
  - destruct (p x) eqn:Hx.
    + destruct (star_greedy p k s) as [b|].
      * destruct (IH H) as (pre & s' & -> & F & Hk). exists (x :: pre), s'. eauto.
      * by exists [], (x :: s).
    + by exists [], (x :: s).
Qed.

Lemma rmatch_lit_end_sound {A} p s cap (k : jsstring -> option jsstring -> option A) a :
  rmatch (RSeq (RLit p) REnd) s cap k = Some a -> s = p.
Proof.
  revert s. induction p as [|c p IH]; intros s; simpl.
  - by destruct s.
  - destruct s as [|x s]; [done|]. destruct (x =? c) eqn:E; [|done].
    apply N.eqb_eq in E as ->. intros H. f_equal. by apply IH in H.
Qed.

Lemma fence_tail_sound {A} s cap (k : jsstring -> option jsstring -> option A) a :
  rmatch fence_tail s cap k = Some a -> exists w, white w /\ s = w ++ lit "```".
Proof.
  unfold fence_tail. intros H.
  change (rmatch (RSeq ?a ?b) ?s ?c ?k)
    with (rmatch a s c (fun s' c' => rmatch b s' c' k)) in H.
  cbn [rmatch] in H. apply star_greedy_sound_white in H as (w & s' & -> & F & H).
  apply rmatch_lit_end_sound in H as ->. by exists w.
Qed.

Lemma fence_tail_ok {A} w cap (k : jsstring -> option jsstring -> option A) a :
  white w -> k [] cap = Some a -> rmatch fence_tail (w ++ lit "```") cap k = Some a.
Proof.
  intros F E. unfold fence_tail.
  change (rmatch (RSeq ?a ?b) ?s ?c ?k)
    with (rmatch a s c (fun s' c' => rmatch b s' c' k)).
  cbn [rmatch]. apply star_greedy_app; [done|].
  change (lit "```") with [96; 96; 96]. simpl. done.
Qed.

Lemma trim_fixed_end s : trim s = s -> trimEnd s = s.
Proof.
  intros H. rewrite <- H at 1. unfold trim. rewrite trimEnd_idem. exact H.
Qed.

Lemma fence_body_exec body w2 cap :
  body <> [] -> trim body = body -> white w2 ->
  rmatch (RSeq (RGroup (RStarLazy any_char)) fence_tail) (body ++ w2 ++ lit "```") cap
    (fun rest c => Some (rest, c))
  = Some ([], Some body).
Proof.
  intros Hb Ht F2. rewrite rmatch_group_lazy.
  rewrite star_lazy_skip.
  - apply star_lazy_here. apply fence_tail_ok; [done|]. do 3 f_equal.
    rewrite !length_app.
    replace (length body + (length w2 + length (lit "```")) - (length w2 + length (lit "```")))%nat
      with (length body) by lia.
    by rewrite take_app_length.
  - by apply Forall_true.
  - intros x1 x2 -> Hx.
    destruct (rmatch fence_tail _ _ _) as [a|] eqn:E; [|done].
    apply fence_tail_sound in E as (w & Fw & E).
    rewrite app_assoc in E. apply app_inv_tail in E.
    destruct (trimEnd_fixed_tail x1 x2 (trim_fixed_end _ Ht) Hx).
    rewrite <- E in Fw. by apply Forall_app in Fw as [? _].
Qed.

Lemma fence_exec_labelled w1 body w2 :
  white w1 -> white w2 -> body <> [] -> trim body = body ->
  regex_exec fence_pattern (lit "```json" ++ w1 ++ body ++ w2 ++ lit "```")
  = Some ([], Some body).
Proof.
  intros F1 F2 Hb Ht. unfold regex_exec, fence_pattern.
  change (lit "```json") with (lit "```" ++ lit "json"). rewrite <- app_assoc.
  rewrite rmatch_lit.
  change (rmatch (RSeq ?a ?b) ?s ?c ?k)
    with (rmatch a s c (fun s' c' => rmatch b s' c' k)).
  cbn [rmatch]. rewrite rmatch_lit_end.
  change (rmatch (RSeq (RStar ?p) ?b) ?s ?c ?k)
    with (star_greedy p (fun s' => rmatch b s' c k) s).
  erewrite star_greedy_app; [done|done|].
  pose proof (trim_black body) as Hblack. rewrite Ht in Hblack.
  destruct body as [|c body]; [done|]. simpl in Hblack.
  change ((c :: body) ++ ?t) with (c :: (body ++ t)). cbn [star_greedy].
  rewrite Hblack. change (c :: (body ++ ?t)) with ((c :: body) ++ t).
  exact (fence_body_exec (c :: body) w2 None Hb Ht F2).
Qed.

Lemma fence_exec_bare w1 body w2 :
  white w1 -> white w2 -> body <> [] -> trim body = body ->
  startsWith (w1 ++ body ++ w2 ++ lit "```") (lit "json") = false ->
  regex_exec fence_pattern (lit "```" ++ w1 ++ body ++ w2 ++ lit "```")
  = Some ([], Some body).
Proof.
  intros F1 F2 Hb Ht Hj. unfold regex_exec, fence_pattern.
  rewrite rmatch_lit.
  change (rmatch (RSeq ?a ?b) ?s ?c ?k)
    with (rmatch a s c (fun s' c' => rmatch b s' c' k)).
  cbn [rmatch]. rewrite rmatch_lit_end_fail by done.
  change (rmatch (RSeq (RStar ?p) ?b) ?s ?c ?k)
    with (star_greedy p (fun s' => rmatch b s' c k) s).
  erewrite star_greedy_app; [done|done|].
  pose proof (trim_black body) as Hblack. rewrite Ht in Hblack.
  destruct body as [|c body]; [done|]. simpl in Hblack.
  change ((c :: body) ++ ?t) with (c :: (body ++ t)). cbn [star_greedy].
  rewrite Hblack. change (c :: (body ++ ?t)) with ((c :: body) ++ t).
  exact (fence_body_exec (c :: body) w2 None Hb Ht F2).
Qed.

Lemma trim_fenced s :
  trim (lit "```" ++ s ++ lit "```") = lit "```" ++ s ++ lit "```".
Proof.
  unfold trim. change (lit "```") with [96; 96; 96].
  change (trimStart ([96; 96; 96] ++ s ++ [96; 96; 96]))
    with ([96; 96; 96] ++ s ++ [96; 96; 96]).
  replace ([96; 96; 96] ++ s ++ [96; 96; 96])
    with (([96; 96; 96] ++ s ++ [96; 96]) ++ [96])
    by (by rewrite <- !app_assoc).
  by apply trimEnd_black_end.
Qed.

(** X8. A text that is one code fence is unwrapped to its inner text: for a
    non-empty [body] without white space at its ends, white space [w1] and
    [w2], the fence labelled json around [w1 body w2] is extracted to [body],
    and so is the fence without a label when what follows its opening does
    not start with json. The inner text may itself contain backticks. *)
Theorem extract_unwraps_fence w1 body w2 :
  white w1 -> white w2 -> body <> [] -> trim body = body ->
  extract (lit "```json" ++ w1 ++ body ++ w2 ++ lit "```") = body
  /\ (startsWith (w1 ++ body ++ w2 ++ lit "```") (lit "json") = false ->
      extract (lit "```" ++ w1 ++ body ++ w2 ++ lit "```") = body).
Proof.
  intros F1 F2 Hb Ht. split.
  - unfold extract, match_group1.
    change (lit "```json" ++ ?t) with (lit "```" ++ (lit "json" ++ t)).
    replace (lit "json" ++ w1 ++ body ++ w2 ++ lit "```")
      with ((lit "json" ++ w1 ++ body ++ w2) ++ lit "```")
      by (by rewrite <- !app_assoc).
    rewrite trim_fenced. rewrite <- !app_assoc.
    change (lit "```" ++ (lit "json" ++ ?t)) with (lit "```json" ++ t).
    rewrite fence_exec_labelled by done. simpl. by destruct body.
  - intros Hj. unfold extract, match_group1.
    replace (w1 ++ body ++ w2 ++ lit "```") with ((w1 ++ body ++ w2) ++ lit "```")
      by (by rewrite <- !app_assoc).
    rewrite trim_fenced. rewrite <- !app_assoc.
    rewrite fence_exec_bare by done. simpl. by destruct body.
Qed.

Lemma extract_unwraps_fence_witness :
  extract (lit "```json" ++ nl ++ js "{~a~: 1}" ++ nl ++ lit "```") = js "{~a~: 1}".
Proof.
  apply (proj1 (extract_unwraps_fence nl (js "{~a~: 1}") nl
                  ltac:(by repeat constructor) ltac:(by repeat constructor)
                  ltac:(done) ltac:(reflexivity))).
Defined.

Lemma extract_plain x :
  startsWith (trim x) (lit "```") = false -> extract x = trim x.
Proof.
  intros H. unfold extract, match_group1, regex_exec, fence_pattern.
  by rewrite rmatch_lit_fail.
Qed.

Lemma extract_app_white w0 x w3 :
  white w0 -> white w3 -> extract (w0 ++ x ++ w3) = extract x.
Proof. intros F0 F3. unfold extract. by rewrite trim_app_white. Qed.

(** X9. White space around a response, and a json code fence around it, do
    not change what the validator returns: [w0 body w3] is validated as
    [body] is, and so is [w0 ```json w1 body w2 ``` w3] for a non-empty
    [body] that has no white space at its ends and does not itself open
    with three backticks. *)
Theorem validator_ignores_wrapping w0 w1 body w2 w3 source :
  white w0 -> white w1 -> white w2 -> white w3 ->
  parseAndValidateAIResponse (w0 ++ body ++ w3) source
  = parseAndValidateAIResponse body source
  /\ (body <> [] -> trim body = body -> startsWith body (lit "```") = false ->
      parseAndValidateAIResponse
        (w0 ++ (lit "```json" ++ w1 ++ body ++ w2 ++ lit "```") ++ w3) source
      = parseAndValidateAIResponse body source).
Proof.
  intros F0 F1 F2 F3. unfold parseAndValidateAIResponse. split.
  - by rewrite extract_app_white.
  - intros Hb Ht Hs. rewrite extract_app_white by done.
    rewrite (extract_plain body) by (by rewrite Ht). rewrite Ht.
    unfold extract, match_group1.
    change (lit "```json" ++ ?t) with (lit "```" ++ (lit "json" ++ t)).
    replace (lit "json" ++ w1 ++ body ++ w2 ++ lit "```")
      with ((lit "json" ++ w1 ++ body ++ w2) ++ lit "```")
      by (by rewrite <- !app_assoc).
    rewrite trim_fenced. rewrite <- !app_assoc.
    change (lit "```" ++ (lit "json" ++ ?t)) with (lit "```json" ++ t).
    rewrite fence_exec_labelled by done. simpl.
    destruct body; [done|]. by rewrite Ht.
Qed.

Lemma validator_ignores_wrapping_witness :
  parseAndValidateAIResponse
    (nl ++ (lit "```json" ++ nl ++ js "{~type~:~text~,~answer~:~a~}" ++ nl ++ lit "```") ++ nl)
    (lit "GoogleAI")
  = parseAndValidateAIResponse (js "{~type~:~text~,~answer~:~a~}") (lit "GoogleAI").
Proof.
  apply (validator_ignores_wrapping nl nl (js "{~type~:~text~,~answer~:~a~}") nl nl);
    try (by repeat constructor); try done.
Defined.

(** ** What the validator rejects and what it accepts *)

Lemma truthy_str t : t <> [] -> truthy (Some (JStr t)) = true.
Proof. by destruct t. Qed.

Lemma validate_typed o t source :
  o !! lit "type" = Some (JStr t) -> t <> [] ->
  validate_parsed (JObj o) source = dispatch_on_type (normalize_follow_up o) source.
Proof. intros H Ht. apply validate_obj. rewrite H. by apply truthy_str. Qed.

(** X10. The error codes of a parsed object. A missing or falsy [type]
    (null, false, 0, the empty string) gives PV02; type text without a
    string [answer] PV03; type list without a string [title] or without an
    array [items] PV04; type error without a string [message] PV05; any
    other non-empty string [type] PV06 with that type in the message. Each
    message names the provider label. *)
Theorem validator_rejections raw source o :
  JSON_parse (extract raw) = Some (JObj o) ->
  let rejected code :=
    parseAndValidateAIResponse raw source = Return (error_response code) in
  (truthy (o !! lit "type") = false -> rejected (PV02 source))
  /\ (o !! lit "type" = Some (JStr (lit "text")) ->
      (forall a, o !! lit "answer" <> Some (JStr a)) -> rejected (PV03 source))
  /\ (o !! lit "type" = Some (JStr (lit "list")) ->
      (forall t, o !! lit "title" <> Some (JStr t))
      \/ (forall l, o !! lit "items" <> Some (JArr l)) -> rejected (PV04 source))
  /\ (o !! lit "type" = Some (JStr (lit "error")) ->
      (forall m, o !! lit "message" <> Some (JStr m)) -> rejected (PV05 source))
  /\ (forall t, o !! lit "type" = Some (JStr t) -> t <> [] ->
      t <> lit "text" -> t <> lit "list" -> t <> lit "error" ->
      rejected (PV06 source t)).
Proof.
  intros P rejected. unfold rejected, parseAndValidateAIResponse. rewrite P.
  repeat split.
  - intros T. unfold validate_parsed. simpl. by rewrite T.
  - intros T A. rewrite (validate_typed _ _ _ T) by done.
    unfold dispatch_on_type. rewrite !normalize_follow_up_other by keys_ne.
    rewrite T. simpl. destruct (o !! lit "answer") as [[]|]; try done. by destruct (A s).
  - intros T A. rewrite (validate_typed _ _ _ T) by done.
    unfold dispatch_on_type. rewrite !normalize_follow_up_other by keys_ne.
    rewrite T. simpl.
    destruct (o !! lit "title") as [[]|], (o !! lit "items") as [[]|]; try done;
      destruct A as [A|A]; solve [by edestruct A].
  - intros T A. rewrite (validate_typed _ _ _ T) by done.
    unfold dispatch_on_type. rewrite !normalize_follow_up_other by keys_ne.
    rewrite T. simpl. destruct (o !! lit "message") as [[]|]; try done. by destruct (A s).
  - intros t T Ht N1 N2 N3. rewrite (validate_typed _ _ _ T) by done.
    unfold dispatch_on_type. rewrite !normalize_follow_up_other by keys_ne.
    rewrite T. unfold str_eqb. by rewrite !bool_decide_eq_false_2.
Qed.

Lemma validator_rejections_witness :
  parseAndValidateAIResponse (js "{~type~:~text~,~answer~:7}") (lit "OpenRouter")
  = Return (error_response
              (lit "AI 'text' response from OpenRouter missing 'answer'. (E:PV03_OpenRouter)")).
Proof.
  refine (proj1 (proj2 (validator_rejections (js "{~type~:~text~,~answer~:7}")
                          (lit "OpenRouter")
                          (list_to_map [(lit "type", JStr (lit "text"));
                                        (lit "answer", num 7)]) _)) _ _).
  - vm_compute. reflexivity.
  - reflexivity.
  - intros a. vm_compute. discriminate.
Defined.

(** X11. What an accepted response carries. For type text with a string
    [answer] (the empty string included) the result is an object of type
    text whose answer is the sent one without bold; for type list with a
    string [title] and an array [items] the title is the sent one without
    bold; for type error with a string [message] the message is returned
    as sent, bold markers included. *)
Theorem validator_accepts raw source o :
  JSON_parse (extract raw) = Some (JObj o) ->
  (forall a, o !! lit "type" = Some (JStr (lit "text")) ->
     o !! lit "answer" = Some (JStr a) ->
     exists o', parseAndValidateAIResponse raw source = Return (JObj o')
       /\ o' !! lit "type" = Some (JStr (lit "text"))
       /\ o' !! lit "answer" = Some (JStr (removeMarkdownBold a)))
  /\ (forall t l, o !! lit "type" = Some (JStr (lit "list")) ->
     o !! lit "title" = Some (JStr t) -> o !! lit "items" = Some (JArr l) ->
     exists o', parseAndValidateAIResponse raw source = Return (JObj o')
       /\ o' !! lit "type" = Some (JStr (lit "list"))
       /\ o' !! lit "title" = Some (JStr (removeMarkdownBold t)))
  /\ (forall m, o !! lit "type" = Some (JStr (lit "error")) ->
     o !! lit "message" = Some (JStr m) ->
     exists o', parseAndValidateAIResponse raw source = Return (JObj o')
       /\ o' !! lit "type" = Some (JStr (lit "error"))
       /\ o' !! lit "message" = Some (JStr m)).
Proof.
  intros P. unfold parseAndValidateAIResponse. rewrite P. repeat split.
  - intros a T A. rewrite (validate_typed _ _ _ T) by done.
    unfold dispatch_on_type. rewrite !normalize_follow_up_other by keys_ne.
    rewrite T, A. simpl. eexists. split; [done|].
    rewrite lookup_insert_ne by keys_ne. rewrite normalize_follow_up_other by keys_ne.
    split; [done|]. by rewrite lookup_insert_eq.
  - intros t l T A I. rewrite (validate_typed _ _ _ T) by done.
    unfold dispatch_on_type. rewrite !normalize_follow_up_other by keys_ne.
    rewrite T, A, I. simpl. eexists. split; [done|]. split.
    + do 2 rewrite lookup_insert_ne by keys_ne.
      by rewrite normalize_follow_up_other by keys_ne.
    + rewrite lookup_insert_ne by keys_ne. by rewrite lookup_insert_eq.
  - intros m T A. rewrite (validate_typed _ _ _ T) by done.
    unfold dispatch_on_type. rewrite !normalize_follow_up_other by keys_ne.
    rewrite T, A. simpl. eexists. split; [done|].
    by rewrite !normalize_follow_up_other by keys_ne.
Qed.

Lemma validator_accepts_witness :
  exists o',
    parseAndValidateAIResponse (js "{~type~:~error~,~message~:~**no**~}") (lit "GoogleAI")
    = Return (JObj o')
    /\ o' !! lit "type" = Some (JStr (lit "error"))
    /\ o' !! lit "message" = Some (JStr (lit "**no**")).
Proof.
  refine (proj2 (proj2 (validator_accepts (js "{~type~:~error~,~message~:~**no**~}")
                          (lit "GoogleAI")
                          (list_to_map [(lit "type", JStr (lit "error"));
                                        (lit "message", JStr (lit "**no**"))]) _))
            (lit "**no**") _ _).
  - vm_compute. reflexivity.
  - reflexivity.
  - reflexivity.
Defined.

(** ** The adapters and the orchestrator, call by call *)

Section Adapters.

Variable cfg : Config.
Variable world : World.

(** A run of the primary adapter, call by call. *)
Lemma attemptOpenRouter_run q m st :
  exists o st',
    attemptOpenRouter cfg world q m st = (o, st')
    /\ ((OPENROUTER_API_KEY cfg = [] /\ o = Throw OR_CFG
         /\ after st [EvAttemptOpenRouter q m] st')
        \/ (OPENROUTER_API_KEY cfg <> []
            /\ after st [EvAttemptOpenRouter q m;
                         EvAxiosPost OPENROUTER_API_URL (requestBody cfg q m)
                           (requestConfig cfg)] st'
            /\ o = match axios_post world OPENROUTER_API_URL (requestBody cfg q m)
                           (requestConfig cfg) with
                   | Throw e => Throw e
                   | Return data =>
                       match content_of data with
                       | Some (JStr raw) =>
                           if str_eqb (trim raw) [] then Throw OR_LR01
                           else parseAndValidateAIResponse raw (lit "OpenRouter")
                       | _ => Throw OR_LR01
                       end
                   end)).
Proof.
  unfold attemptOpenRouter, bind, try_catch, emit, throw, lift. simpl.
  destruct (OPENROUTER_API_KEY cfg) as [|c key] eqn:K; simpl.
  { do 2 eexists. split; [done|]. left. repeat split; done. }
  fold (content_of).
  destruct (axios_post world _ _ _) as [data|e]; simpl.
  2:{ do 2 eexists. split; [done|]. right. split; [done|]. split; [after_tac|done]. }
  change (opt_get _ (lit "content")) with (content_of data).
  destruct (content_of data) as [[| | |raw| |]|]; simpl;
    try (do 2 eexists; split; [done|]; right; split; [done|]; split; [after_tac|done]).
  destruct raw as [|c' raw]; simpl.
  { do 2 eexists; split; [done|]; right; split; [done|]; split; [after_tac|done]. }
  destruct (str_eqb (trim (c' :: raw)) []); simpl.
  { do 2 eexists; split; [done|]; right; split; [done|]; split; [after_tac|done]. }
  destruct (parseAndValidateAIResponse _ _); simpl;
    do 2 eexists; (split; [done|]); right; (split; [done|]); (split; [after_tac|done]).
Qed.

(** A run of the secondary adapter, call by call. *)
Lemma getAnswerFromGoogleAI_run q st :
  exists o st',
    getAnswerFromGoogleAI cfg world q st = (o, st')
    /\ ((GOOGLE_AI_API_KEY cfg = []
         /\ o = Throw (lit "Google AI API key not configured. (E:GA_CFG)")
         /\ after st [EvGetAnswerFromGoogleAI q] st')
        \/ (GOOGLE_AI_API_KEY cfg <> []
            /\ after st [EvGetAnswerFromGoogleAI q;
                         EvGenerateContent (GOOGLE_AI_API_KEY cfg) generationParams
                           (fullPromptForGoogleAI cfg q)] st'
            /\ o = match generateContent world (GOOGLE_AI_API_KEY cfg) generationParams
                           (fullPromptForGoogleAI cfg q) with
                   | Throw e => Throw (GA_AX (str_or e (lit "Unknown Google AI Error")))
                   | Return raw =>
                       if str_eqb (trim raw) [] then Throw (GA_AX GA_LR01)
                       else
                         match parseAndValidateAIResponse raw (lit "GoogleAI") with
                         | Return r => Return r
                         | Throw e =>
                             Throw (GA_AX (str_or e (lit "Unknown Google AI Error")))
                         end
                   end)).
Proof.
  unfold getAnswerFromGoogleAI, bind, try_catch, emit, throw, lift. simpl.
  destruct (GOOGLE_AI_API_KEY cfg) as [|c key] eqn:K; simpl.
  { do 2 eexists. split; [done|]. left. repeat split; done. }
  destruct (generateContent world _ _ _) as [raw|e]; simpl.
  2:{ do 2 eexists. split; [done|]. right. split; [done|]. split; [after_tac|done]. }
  destruct raw as [|c' raw]; simpl.
  { do 2 eexists; split; [done|]; right; split; [done|]; split; [after_tac|done]. }
  destruct (str_eqb (trim (c' :: raw)) []); simpl.
  { do 2 eexists; split; [done|]; right; split; [done|]; split; [after_tac|done]. }
  destruct (parseAndValidateAIResponse _ _); simpl;
    do 2 eexists; (split; [done|]); right; (split; [done|]); (split; [after_tac|done]).
Qed.

Lemma str_or_nonempty a b : b <> [] -> str_or a b <> [].
Proof. by destruct a. Qed.

(** X12. With its key configured, every error of [getAnswerFromGoogleAI] is
    one its own catch has wrapped: the message is Google AI service failed,
    a non-empty cause and the code GA_AX. A blank text from Google AI is
    thrown inside the try, so its GA_LR01 message is the cause and the
    message carries both codes; an exception of the validator is the cause
    when the text is not blank. *)
Theorem google_errors_wrapped q st e st' :
  getAnswerFromGoogleAI cfg world q st = (Throw e, st') ->
  GOOGLE_AI_API_KEY cfg <> [] ->
  exists cause,
    cause <> []
    /\ e = lit "Google AI service failed: " ++ cause ++ lit " (E:GA_AX)"
    /\ forall raw,
         generateContent world (GOOGLE_AI_API_KEY cfg) generationParams
           (fullPromptForGoogleAI cfg q) = Return raw ->
         (trim raw = [] ->
          cause = lit "Google AI service returned empty content. (E:GA_LR01)")
         /\ (trim raw <> [] -> cause = TypeError_not_primitive).
Proof.
  intros H K. destruct (getAnswerFromGoogleAI_run q st) as (o & st1 & E & R).
  rewrite H in E. injection E as <- <-.
  destruct R as [[K' _]|(_ & _ & R)]; [done|].
  destruct (generateContent world _ _ _) as [raw|e0].
  - unfold str_eqb in R. case_bool_decide as T.
    + injection R as ->. exists GA_LR01. split; [done|]. split; [done|].
      intros ? [= <-]. split; [done|]. by intros [].
    + destruct (parseAndValidateAIResponse raw _) as [r|e0] eqn:V; [done|].
      injection R as ->.
      assert (e0 = TypeError_not_primitive) as ->.
      { unfold parseAndValidateAIResponse in V.
        destruct (JSON_parse _) as [p|]; [|done]. unfold validate_parsed in V.
        destruct (_ || _); [done|]. destruct p; try done.
        by apply dispatch_throws in V as [-> _]. }
      exists TypeError_not_primitive. split; [done|]. split; [done|].
      intros ? [= <-]. split; [done|]. done.
  - injection R as ->. exists (str_or e0 (lit "Unknown Google AI Error")).
    split; [by apply str_or_nonempty|]. split; [done|]. intros ? [=].
Qed.

(** X13. A run of [getAnswerFromLLM] makes its calls in one fixed order and
    each at most once: the calls are a sublist of the entry of the primary
    adapter, the POST to OpenRouter, the entry of the secondary adapter and
    the call of Google AI, with the arguments of [calls_of]. Nothing is
    retried, the database is left alone, and a provider is contacted only
    when its key is configured. *)
Theorem orchestrator_calls q st :
  exists o st' tl,
    getAnswerFromLLM cfg world q st = (o, st')
    /\ after st tl st'
    /\ tl `sublist_of` calls_of cfg q
    /\ (forall url body config, EvAxiosPost url body config ∈ tl ->
          OPENROUTER_API_KEY cfg <> [])
    /\ (forall key params prompt, EvGenerateContent key params prompt ∈ tl ->
          GOOGLE_AI_API_KEY cfg <> []).
Proof.
  unfold getAnswerFromLLM, try_catch, ret.
  destruct (commonPreChecks cfg).
  { exists (Return j), st, []. split; [done|]. split; [apply after_refl|].
    split; [apply sublist_nil_l|]. split; intros ???; by intros ?%elem_of_nil. }
  destruct (attemptOpenRouter_run q DEFAULT_OPENROUTER_MODEL st) as (o1 & st1 & E1 & R1).
  rewrite E1.
  assert (exists tl1, after st tl1 st1
            /\ tl1 `sublist_of` take 2 (calls_of cfg q)
            /\ (forall url body config, EvAxiosPost url body config ∈ tl1 ->
                  OPENROUTER_API_KEY cfg <> [])
            /\ (forall key params prompt, EvGenerateContent key params prompt ∉ tl1))
    as (tl1 & A1 & S1 & P1 & N1).
  { destruct R1 as [(K & _ & A)|(K & A & _)]; eexists; (split; [exact A|]);
      (split; [simpl; sublist_tac|]); split; try done.
    - intros ??? H. apply list_elem_of_singleton in H. done.
    - intros ??? H. apply list_elem_of_singleton in H. done.
    - intros ??? H. apply elem_of_cons in H as [?|H]; [done|].
      by apply list_elem_of_singleton in H. }
  assert (forall tl2, tl2 `sublist_of` drop 2 (calls_of cfg q) ->
            (tl1 ++ tl2) `sublist_of` calls_of cfg q) as S.
  { intros tl2 S2. rewrite <- (take_drop 2 (calls_of cfg q)). by apply sublist_app. }
  destruct o1 as [r1|e1].
  { exists (Return r1), st1, tl1. split; [done|]. split; [done|].
    split; [rewrite <- (app_nil_r tl1); apply S, sublist_nil_l|]. split; [done|].
    intros ??? H. by apply N1 in H. }
  destruct (GOOGLE_AI_API_KEY cfg) as [|c key] eqn:K; simpl.
  { eexists _, st1, tl1. split; [done|]. split; [done|].
    split; [rewrite <- (app_nil_r tl1); apply S, sublist_nil_l|]. split; [done|].
    intros ??? H. by apply N1 in H. }
  destruct (getAnswerFromGoogleAI_run q st1) as (o2 & st2 & E2 & R2). rewrite E2.
  destruct R2 as [(K' & _)|(_ & A2 & _)]; [by rewrite K in K'|].
  eexists (match o2 with Return r => Return r | Throw e => _ end), st2, _.
  split; [by destruct o2|]. split; [eapply after_trans; [exact A1|exact A2]|].
  split; [apply S; simpl; rewrite K; sublist_tac|]. split; [|done].
  intros ??? H. apply elem_of_app in H as [H|H]; [by eapply P1|].
  apply elem_of_cons in H as [?|H]; [done|]. by apply list_elem_of_singleton in H.
Qed.

(** X14. With the Google AI key alone and a document, the orchestrator still
    enters the primary adapter, which throws at once; no request goes to
    OpenRouter, Google AI is called once, and when it sends a non-blank text
    the validator returns on, that is the result. *)
Theorem google_only_configuration q st :
  OPENROUTER_API_KEY cfg = [] -> GOOGLE_AI_API_KEY cfg <> [] ->
  effectiveKnowledgeBase cfg <> [] ->
  exists r st',
    getAnswerFromLLM cfg world q st = (Return r, st')
    /\ after st [EvAttemptOpenRouter q DEFAULT_OPENROUTER_MODEL;
                 EvGetAnswerFromGoogleAI q;
                 EvGenerateContent (GOOGLE_AI_API_KEY cfg) generationParams
                   (fullPromptForGoogleAI cfg q)] st'
    /\ forall raw r',
         generateContent world (GOOGLE_AI_API_KEY cfg) generationParams
           (fullPromptForGoogleAI cfg q) = Return raw ->
         trim raw <> [] ->
         parseAndValidateAIResponse raw (lit "GoogleAI") = Return r' ->
         r = r'.
Proof.
  intros K1 K2 D. unfold getAnswerFromLLM, try_catch, ret, commonPreChecks.
  rewrite K1. destruct (GOOGLE_AI_API_KEY cfg) as [|c key] eqn:K; [done|].
  destruct (effectiveKnowledgeBase cfg) as [|d doc] eqn:E; [done|]. simpl.
  destruct (attemptOpenRouter_run q DEFAULT_OPENROUTER_MODEL st) as (o1 & st1 & E1 & R1).
  rewrite E1. destruct R1 as [(_ & -> & A1)|(K' & _)]; [|done].
  destruct (getAnswerFromGoogleAI_run q st1) as (o2 & st2 & E2 & R2). rewrite E2.
  destruct R2 as [(K' & _)|(_ & A2 & R2)]; [by rewrite K in K'|].
  rewrite K in A2, R2.
  eexists (match o2 with Return r => r | Throw e => _ end), st2.
  split; [by destruct o2|].
  split; [exact (after_trans _ [_] _ [_; _] _ A1 A2)|].
  intros raw r' G T V. rewrite G in R2. unfold str_eqb in R2.
  rewrite bool_decide_eq_false_2 in R2 by done. rewrite V in R2. by subst o2.
Qed.

Lemma orchestrator_legal q st r st' :
  getAnswerFromLLM cfg world q st = (Return r, st') -> legal_kind r.
Proof.
  unfold getAnswerFromLLM, try_catch, ret, commonPreChecks.
  destruct (_ && _); [intros [= <- _]; apply legal_error|].
  destruct (negb _); [intros [= <- _]; apply legal_error|].
  destruct (attemptOpenRouter _ _ _ _ _) as [[r1|e] st1] eqn:E1.
  { intros [= <- _]. apply openrouter_success in E1 as [raw V].
    by eapply validated_legal. }
  destruct (truthy _); [|intros [= <- _]; apply legal_error].
  destruct (getAnswerFromGoogleAI _ _ _ _) as [[r2|e'] st2] eqn:E2.
  - intros [= <- _]. apply google_success in E2 as (_ & raw & _ & V).
    by eapply validated_legal.
  - intros [= <- _]. apply legal_error.
Qed.

End Adapters.

Lemma google_errors_wrapped_witness :
  exists cause,
    cause <> []
    /\ lit "Google AI service failed: Google AI service returned empty content. (E:GA_LR01) (E:GA_AX)"
       = lit "Google AI service failed: " ++ cause ++ lit " (E:GA_AX)"
    /\ forall raw,
         generateContent blank_world (GOOGLE_AI_API_KEY demo_cfg) generationParams
           (fullPromptForGoogleAI demo_cfg (lit "What is a SAFE?")) = Return raw ->
         (trim raw = [] ->
          cause = lit "Google AI service returned empty content. (E:GA_LR01)")
         /\ (trim raw <> [] -> cause = TypeError_not_primitive).
Proof.
  eapply (google_errors_wrapped demo_cfg blank_world (lit "What is a SAFE?") demo_state).
  - vm_compute. reflexivity.
  - done.
Defined.

Lemma google_only_configuration_witness :
  exists st',
    getAnswerFromLLM google_only_cfg demo_world (lit "What is a SAFE?") demo_state
    = (Return (obj [(lit "type", JStr (lit "text"));
                    (lit "answer",
                     JStr (lit "A SAFE is a Simple Agreement for Future Equity."));
                    (lit "follow_up", JNull)]), st')
    /\ length (trace st') = 3%nat.
Proof.
  destruct (google_only_configuration google_only_cfg demo_world (lit "What is a SAFE?")
              demo_state) as (r & st' & E & [T _] & R); [reflexivity|done|done|].
  exists st'. split; [|by rewrite T].
  rewrite E. f_equal. f_equal. eapply R; [reflexivity|done|vm_compute; reflexivity].
Defined.

(** ** What the orchestrator returns *)

Section Outcomes.

Variable cfg : Config.
Variable world : World.

(** Two strings that differ. *)
Lemma str_eqb_false a b : a <> b -> str_eqb a b = false.
Proof. intros H. unfold str_eqb. by apply bool_decide_eq_false. Qed.

(** The notions of the statements against the runs of the adapters. *)
Lemma primary_text_run q raw st :
  primary_text cfg world q raw ->
  exists st1,
    attemptOpenRouter cfg world q DEFAULT_OPENROUTER_MODEL st
    = (parseAndValidateAIResponse raw (lit "OpenRouter"), st1).
Proof.
  intros (K & data & A & C & T).
  destruct (attemptOpenRouter_run cfg world q DEFAULT_OPENROUTER_MODEL st)
    as (o & st1 & E & [(K' & _)|(_ & _ & ->)]); [done|].
  exists st1. by rewrite E, A, C, str_eqb_false.
Qed.

Lemma primary_failure_run q e st :
  primary_failure cfg world q e <->
  exists st1,
    attemptOpenRouter cfg world q DEFAULT_OPENROUTER_MODEL st = (Throw e, st1).
Proof.
  destruct (attemptOpenRouter_run cfg world q DEFAULT_OPENROUTER_MODEL st)
    as (o & st1 & E & R). rewrite E. split.
  - intros F. exists st1. f_equal.
    destruct R as [(K & -> & _)|(K & _ & ->)].
    + destruct F as [[_ ->]|[K' _]]; done.
    + destruct F as [[K' _]|(_ & [A|[(data & A & C & ->)|(raw & (_ & data & A & C & T) & V)]])];
        [done| | |]; rewrite A; [done| |].
      * destruct (content_of data) as [[| | |raw| |]|]; try done.
        by rewrite (C raw eq_refl).
      * by rewrite C, str_eqb_false.
  - intros (st1' & [= -> _]).
    destruct R as [(K & [= ->] & _)|(K & _ & R)]; [by left|]. right. split; [done|].
    destruct (axios_post world _ _ _) as [data|e'] eqn:A; [|left; congruence].
    right. destruct (content_of data) as [[| | |raw| |]|] eqn:C;
      try (left; exists data; split; [done|]; split;
           [by intros ? H; rewrite C in H|congruence]).
    unfold str_eqb in R. case_bool_decide as T.
    + left. exists data. split; [done|]. split; [|congruence].
      intros ? H. rewrite C in H. by injection H as <-.
    + right. exists raw. split; [|done]. split; [done|]. by exists data.
Qed.

Lemma secondary_text_run q raw st :
  GOOGLE_AI_API_KEY cfg <> [] -> secondary_text cfg world q raw ->
  exists st1,
    getAnswerFromGoogleAI cfg world q st
    = (match parseAndValidateAIResponse raw (lit "GoogleAI") with
       | Return r => Return r
       | Throw e => Throw (GA_AX (str_or e (lit "Unknown Google AI Error")))
       end, st1).
Proof.
  intros K (G & T).
  destruct (getAnswerFromGoogleAI_run cfg world q st)
    as (o & st1 & E & [(K' & _)|(_ & _ & ->)]); [done|].
  exists st1. by rewrite E, G, str_eqb_false.
Qed.

Lemma secondary_failure_run q e st :
  GOOGLE_AI_API_KEY cfg <> [] ->
  (exists st1, getAnswerFromGoogleAI cfg world q st = (Throw e, st1)) <->
  exists cause, secondary_failure cfg world q cause /\ e = GA_AX cause.
Proof.
  intros K.
  destruct (getAnswerFromGoogleAI_run cfg world q st)
    as (o & st1 & E & [(K' & _)|(_ & _ & R)]); [done|]. rewrite E. split.
  - intros (st1' & [= -> _]).
    destruct (generateContent world _ _ _) as [raw|e'] eqn:G.
    + unfold str_eqb in R. case_bool_decide as T.
      * injection R as ->. exists GA_LR01. split; [|done]. right. left. by exists raw.
      * destruct (parseAndValidateAIResponse raw _) as [r|e'] eqn:V; [done|].
        injection R as ->. eexists. split; [|done]. right. right. by exists raw, e'.
    + injection R as ->. eexists. split; [|done]. left. by exists e'.
  - intros (cause & F & ->). exists st1. f_equal. rewrite R.
    destruct F as [(e' & G & ->)|[(raw & G & T & ->)|(raw & e' & (G & T) & V & ->)]];
      rewrite G; [done| |].
    + unfold str_eqb. by rewrite bool_decide_eq_true_2.
    + by rewrite str_eqb_false, V.
Qed.

(** X15. What a run that passed the pre-flight checks returns, from what
    the providers answer. It returns [r] exactly when one of four things
    holds. OpenRouter answered the request with a non-blank text and [r] is
    what the validator returns on that text under the label OpenRouter. Or
    the primary adapter failed with a message [e] ([primary_failure]: no
    key, the error of the request, the error for a missing or blank
    content, or an exception of the validator) and: no Google AI key is
    configured and [r] is the F02 error around [e]; or Google AI answered
    its prompt with a non-blank text and [r] is what the validator returns
    on it under the label GoogleAI; or the call of Google AI failed for the
    reason [cause] ([secondary_failure]) and [r] is the F01 error around
    the wrapped message, with the codes GA_AX and F01. *)
Theorem orchestrator_outcomes q st r :
  commonPreChecks cfg = None ->
  (exists st', getAnswerFromLLM cfg world q st = (Return r, st')) <->
  (exists raw,
     primary_text cfg world q raw
     /\ parseAndValidateAIResponse raw (lit "OpenRouter") = Return r)
  \/ exists e,
       primary_failure cfg world q e
       /\ ((GOOGLE_AI_API_KEY cfg = []
            /\ r = error_response
                     (lit "Primary AI service failed and no fallback configured. OpenRouter Error: "
                      ++ str_or e (lit "Unknown OpenRouter Error") ++ lit " (E:F02)"))
           \/ (GOOGLE_AI_API_KEY cfg <> []
               /\ exists raw,
                    secondary_text cfg world q raw
                    /\ parseAndValidateAIResponse raw (lit "GoogleAI") = Return r)
           \/ (GOOGLE_AI_API_KEY cfg <> []
               /\ exists cause,
                    secondary_failure cfg world q cause
                    /\ r = error_response
                             (lit "All AI services failed. Google AI Error: Google AI service failed: "
                              ++ cause ++ lit " (E:GA_AX) (E:F01)"))).
Proof.
  intros Hpre. unfold getAnswerFromLLM, try_catch, ret. rewrite Hpre.
  assert (forall cause, F01 (GA_AX cause)
            = lit "All AI services failed. Google AI Error: Google AI service failed: "
              ++ cause ++ lit " (E:GA_AX) (E:F01)") as HF.
  { intros cause. unfold F01, GA_AX. simpl. by rewrite <- !app_assoc. }
  split.
  - intros (st' & H).
    destruct (attemptOpenRouter cfg world q DEFAULT_OPENROUTER_MODEL st)
      as [[r1|e1] st1] eqn:E1.
    { injection H as -> ->. left.
      destruct (attemptOpenRouter_run cfg world q DEFAULT_OPENROUTER_MODEL st)
        as (o & st1' & E & R). rewrite E1 in E. injection E as <- <-.
      destruct R as [(_ & [=] & _)|(K & _ & R)].
      destruct (axios_post world _ _ _) as [data|] eqn:A; [|done].
      destruct (content_of data) as [[| | |raw| |]|] eqn:C; try done.
      unfold str_eqb in R. case_bool_decide as T; [done|].
      exists raw. split; [|done]. split; [done|]. by exists data. }
    right. exists e1. split; [apply (primary_failure_run q e1 st); eauto|].
    destruct (GOOGLE_AI_API_KEY cfg) as [|c key] eqn:K; simpl in H.
    { injection H as <- _. by left. }
    assert (GOOGLE_AI_API_KEY cfg <> []) as Kne by (by rewrite K).
    right.
    destruct (getAnswerFromGoogleAI cfg world q st1) as [[r2|e2] st2] eqn:E2;
      injection H as <- _.
    + left. split; [done|].
      destruct (getAnswerFromGoogleAI_run cfg world q st1) as (o & st2' & E & R).
      rewrite E2 in E. injection E as <- <-.
      destruct R as [(K' & _)|(_ & _ & R)]; [by rewrite K in K'|].
      destruct (generateContent world _ _ _) as [raw|] eqn:G; [|done].
      unfold str_eqb in R. case_bool_decide as T; [done|].
      exists raw. split; [done|].
      destruct (parseAndValidateAIResponse raw _); [by injection R as ->|done].
    + right. split; [done|].
      destruct (proj1 (secondary_failure_run q e2 st1 Kne))
        as (cause & F & ->); [eauto|].
      exists cause. split; [done|]. rewrite <- HF. unfold F01. by destruct (GA_AX cause).
  - intros [(raw & P & V)|(e & F & C)].
    + destruct (primary_text_run q raw st P) as (st1 & ->). rewrite V. eauto.
    + apply (primary_failure_run q e st) in F as (st1 & ->).
      destruct C as [[-> ->]|[(K & raw & S & V)|(K & cause & S & Hr)]]; [by eauto| |].
      * destruct (secondary_text_run q raw st1 K S) as (st2 & E2).
        destruct (GOOGLE_AI_API_KEY cfg) as [|c key] eqn:K'; [done|]. simpl.
        rewrite E2, V. eauto.
      * destruct (proj2 (secondary_failure_run q (GA_AX cause) st1 K))
          as (st2 & E2); [by exists cause|].
        rewrite <- HF in Hr. subst r.
        destruct (GOOGLE_AI_API_KEY cfg) as [|c key] eqn:K'; [done|]. simpl.
        rewrite E2. eauto.
Qed.

End Outcomes.

Lemma orchestrator_outcomes_witness :
  exists st',
    getAnswerFromLLM demo_cfg blank_world (lit "What is a SAFE?") demo_state
    = (Return (error_response
                 (lit "All AI services failed. Google AI Error: Google AI service failed: Google AI service returned empty content. (E:GA_LR01) (E:GA_AX) (E:F01)")),
       st').
Proof.
  apply (orchestrator_outcomes demo_cfg blank_world (lit "What is a SAFE?") demo_state
           _ eq_refl).
  right. exists (lit "Network Error"). split.
  { right. split; [done|]. by left. }
  right. right. split; [done|]. exists GA_LR01. split; [|reflexivity].
  right. left. by exists (lit " ").
Defined.

(** ** Extra properties, to the caller and to the history *)







(** ** The document beyond the budget *)

(** The document the prompts are built from. *)
Lemma effective_document cfg d :
  (KNOWLEDGE_BASE_CONTENT_OVERRIDE cfg = Some d /\ d <> [])
  \/ ((KNOWLEDGE_BASE_CONTENT_OVERRIDE cfg = None
       \/ KNOWLEDGE_BASE_CONTENT_OVERRIDE cfg = Some [])
      /\ KNOWLEDGE_BASE_CONTENT cfg = d) ->
  effectiveKnowledgeBase cfg = d.
Proof.
  unfold effectiveKnowledgeBase.
  intros [[-> Hd]|[[-> | ->] <-]]; simpl; [by destruct d|done|done].
Qed.

(** The user message of the request body is the user prompt. *)
Lemma user_content_requestBody cfg q m :
  user_content (requestBody cfg q m) = Some (JStr (userPromptContent cfg q)).
Proof.
  unfold user_content, requestBody, obj. cbn [get list_to_map foldr].
  rewrite lookup_insert_ne by keys_ne. rewrite lookup_insert_eq.
  cbn [opt_get_index get_index lookup]. simpl.
  unfold obj. cbn [get list_to_map foldr].
  rewrite lookup_insert_ne by keys_ne. by rewrite lookup_insert_eq.
Qed.

(** C9. Let [d] be the knowledge document: the override of the environment
    when it is set and not empty, the content of the knowledge file
    otherwise. A run of [attemptOpenRouter] with its key posts one request
    whose user message is the fixed text around the first 25,000 code
    units of [d], and its outcome is that of this request; a run of
    [getAnswerFromGoogleAI] with its key calls Google AI once with a prompt
    that is fixed text around the first 25,000 code units of [d], and its
    outcome is that of this call. The portion is at most 25,000 code units
    long and is [d] itself when [d] is no longer than that. *)
Theorem document_budget cfg world d q st :
  (KNOWLEDGE_BASE_CONTENT_OVERRIDE cfg = Some d /\ d <> [])
  \/ ((KNOWLEDGE_BASE_CONTENT_OVERRIDE cfg = None
       \/ KNOWLEDGE_BASE_CONTENT_OVERRIDE cfg = Some [])
      /\ KNOWLEDGE_BASE_CONTENT cfg = d) ->
  let portion := take (N.to_nat 25000) d in
  (forall m,
     OPENROUTER_API_KEY cfg <> [] ->
     exists body o st',
       attemptOpenRouter cfg world q m st = (o, st')
       /\ trace st'
          = trace st ++ [EvAttemptOpenRouter q m;
                         EvAxiosPost OPENROUTER_API_URL body (requestConfig cfg)]
       /\ user_content body
          = Some (JStr (lit "DOCUMENT:" ++ nl ++ lit "---" ++ nl ++ portion
                        ++ nl ++ lit "---" ++ nl ++ lit "USER QUESTION: " ++ q))
       /\ (forall e,
             axios_post world OPENROUTER_API_URL body (requestConfig cfg) = Throw e ->
             o = Throw e)
       /\ (forall data raw,
             axios_post world OPENROUTER_API_URL body (requestConfig cfg) = Return data ->
             content_of data = Some (JStr raw) -> trim raw <> [] ->
             o = parseAndValidateAIResponse raw (lit "OpenRouter")))
  /\ (GOOGLE_AI_API_KEY cfg <> [] ->
      exists prompt o st',
        getAnswerFromGoogleAI cfg world q st = (o, st')
        /\ trace st'
           = trace st ++ [EvGetAnswerFromGoogleAI q;
                          EvGenerateContent (GOOGLE_AI_API_KEY cfg) generationParams
                            prompt]
        /\ prompt
           = (nl ++ indent8 ++ sharedSystemPromptForJSON ++ lit " " ++ nl ++ nl
              ++ indent8 ++ lit "DOCUMENT:" ++ nl ++ indent8 ++ lit "---" ++ nl ++ indent8)
             ++ portion
             ++ (lit " " ++ nl ++ indent8 ++ lit "---" ++ nl ++ nl
                 ++ indent8 ++ lit "USER QUESTION: " ++ q ++ nl ++ nl ++ indent8
                 ++ lit "JSON RESPONSE (ONLY the JSON object, no other text or markdown):"
                 ++ nl ++ lit "    ")
        /\ (forall e,
              generateContent world (GOOGLE_AI_API_KEY cfg) generationParams prompt
              = Throw e ->
              o = Throw (lit "Google AI service failed: "
                         ++ str_or e (lit "Unknown Google AI Error") ++ lit " (E:GA_AX)"))
        /\ (forall raw r,
              generateContent world (GOOGLE_AI_API_KEY cfg) generationParams prompt
              = Return raw ->
              trim raw <> [] ->
              parseAndValidateAIResponse raw (lit "GoogleAI") = Return r ->
              o = Return r))
  /\ (length portion <= N.to_nat 25000)%nat
  /\ ((length d <= N.to_nat 25000)%nat -> portion = d).
Proof.
  intros Hd portion. apply effective_document in Hd.
  split; [|split; [|split]].
  - intros m K.
    destruct (attemptOpenRouter_run cfg world q m st)
      as (o & st' & E & [(K' & _)|(_ & (T & _) & R)]); [done|].
    exists (requestBody cfg q m), o, st'. split; [done|]. split; [done|].
    split; [|split].
    + rewrite user_content_requestBody. unfold userPromptContent, substring0, DOCUMENT_BUDGET.
      by rewrite Hd.
    + intros e A. by rewrite A in R.
    + intros data raw A C T'. rewrite A, C in R. by rewrite str_eqb_false in R.
  - intros K.
    destruct (getAnswerFromGoogleAI_run cfg world q st)
      as (o & st' & E & [(K' & _)|(_ & (T & _) & R)]); [done|].
    exists (fullPromptForGoogleAI cfg q), o, st'. split; [done|]. split; [done|].
    split; [|split].
    + unfold fullPromptForGoogleAI, substring0, DOCUMENT_BUDGET. rewrite Hd.
      by rewrite <- !app_assoc.
    + intros e G. by rewrite G in R.
    + intros raw r G T' V. rewrite G, V in R. by rewrite str_eqb_false in R.
  - unfold portion. rewrite length_take. lia.
  - intros H. unfold portion. by apply take_ge.
Qed.

(** A document of 25,004 code units: the request carries its first 25,000. *)
Lemma document_budget_witness :
  exists body o st',
    attemptOpenRouter (long_cfg (lit "tail")) demo_world (lit "q")
      DEFAULT_OPENROUTER_MODEL demo_state = (o, st')
    /\ trace st'
       = [EvAttemptOpenRouter (lit "q") DEFAULT_OPENROUTER_MODEL;
          EvAxiosPost OPENROUTER_API_URL body (requestConfig (long_cfg (lit "tail")))]
    /\ user_content body
       = Some (JStr (lit "DOCUMENT:" ++ nl ++ lit "---" ++ nl
                     ++ take (N.to_nat 25000) (replicate (N.to_nat 25000) 97 ++ lit "tail")
                     ++ nl ++ lit "---" ++ nl ++ lit "USER QUESTION: " ++ lit "q")).
Proof.
  destruct (proj1 (document_budget (long_cfg (lit "tail")) demo_world
                     (replicate (N.to_nat 25000) 97 ++ lit "tail") (lit "q") demo_state
                     (or_intror (conj (or_introl eq_refl) eq_refl)))
              DEFAULT_OPENROUTER_MODEL ltac:(done))
    as (body & o & st' & E & T & U & _).
  exists body, o, st'. split; [exact E|]. split; [exact T|exact U].
Defined.

(** X16. Nothing of the knowledge document beyond its first 25000 code
    units reaches a provider or the result: two configurations with the
    same keys, site URL and application name whose effective documents
    agree on their first 25000 code units make [getAnswerFromLLM] behave
    the same on every question, in every world and state. *)
Theorem document_tail_ignored cfg1 cfg2 world q :
  OPENROUTER_API_KEY cfg1 = OPENROUTER_API_KEY cfg2 ->
  GOOGLE_AI_API_KEY cfg1 = GOOGLE_AI_API_KEY cfg2 ->
  YOUR_SITE_URL cfg1 = YOUR_SITE_URL cfg2 ->
  YOUR_APP_NAME cfg1 = YOUR_APP_NAME cfg2 ->
  take (N.to_nat 25000) (effectiveKnowledgeBase cfg1)
  = take (N.to_nat 25000) (effectiveKnowledgeBase cfg2) ->
  forall st, getAnswerFromLLM cfg1 world q st = getAnswerFromLLM cfg2 world q st.
Proof.
  intros K1 K2 U1 U2 D st.
  assert (commonPreChecks cfg1 = commonPreChecks cfg2) as P.
  { unfold commonPreChecks. rewrite K1, K2.
    destruct (effectiveKnowledgeBase cfg1), (effectiveKnowledgeBase cfg2); done. }
  assert (forall m, requestBody cfg1 q m = requestBody cfg2 q m) as B.
  { intros m. unfold requestBody, userPromptContent, substring0, DOCUMENT_BUDGET.
    by rewrite D. }
  assert (requestConfig cfg1 = requestConfig cfg2) as C.
  { unfold requestConfig. by rewrite K1, U1, U2. }
  assert (fullPromptForGoogleAI cfg1 q = fullPromptForGoogleAI cfg2 q) as G.
  { unfold fullPromptForGoogleAI, substring0, DOCUMENT_BUDGET. by rewrite D. }
  unfold getAnswerFromLLM, attemptOpenRouter, getAnswerFromGoogleAI.
  by rewrite P, !B, C, G, K1, K2.
Qed.

Lemma document_tail_ignored_witness :
  getAnswerFromLLM (long_cfg (lit "b")) demo_world (lit "q") demo_state
  = getAnswerFromLLM (long_cfg (lit "c")) demo_world (lit "q") demo_state.
Proof.
  apply (document_tail_ignored (long_cfg (lit "b")) (long_cfg (lit "c")) demo_world
           (lit "q")); [reflexivity|reflexivity|reflexivity|reflexivity|].
  change (effectiveKnowledgeBase (long_cfg ?t))
    with (replicate (N.to_nat 25000) 97 ++ t).
  by rewrite !take_app_length' by (symmetry; apply length_replicate).
Defined.

(** ** The database connection and the responses of the handler *)

Section Handlers.

Variable cfg : Config.
Variable world : World.

(** X17. [ensureDbConnection] never throws and leaves the history alone.
    When the flag is set, or no URI is configured, the state stays as it is.
    Otherwise [mongoose.connect] is tried: when it fails the error is
    swallowed and the state stays as it is; when it succeeds the flag is set
    and the three listeners are registered on the connection, in the order
    error, disconnected, reconnected, the first two clearing the flag and
    the third setting it when their event is raised. *)
Theorem ensureDbConnection_effect st :
  exists st',
    ensureDbConnection cfg world st = (Return tt, st')
    /\ history st' = history st
    /\ (isConnected st = true -> st' = st)
    /\ (MONGODB_URI cfg = None \/ MONGODB_URI cfg = Some [] -> st' = st)
    /\ forall uri,
         isConnected st = false -> MONGODB_URI cfg = Some uri -> uri <> [] ->
         (forall e, mongoose_connect world uri = Throw e -> st' = st)
         /\ (mongoose_connect world uri = Return tt ->
             isConnected st' = true
             /\ trace st'
                = trace st ++ [EvConnectionOn (lit "error") false;
                               EvConnectionOn (lit "disconnected") false;
                               EvConnectionOn (lit "reconnected") true]).
Proof.
  unfold ensureDbConnection, connectToDatabase, bind, get_connected, try_catch,
    set_connected, lift, ret, emit. simpl.
  destruct st as [tr c h]. simpl. destruct c; simpl.
  { eexists. split; [done|]. split_and!; try done. }
  destruct (MONGODB_URI cfg) as [[|d uri]|]; simpl.
  - eexists. split; [done|]. split_and!; try done. by intros ? _ [= <-].
  - destruct (mongoose_connect world _) as [[]|e] eqn:E; simpl;
      (eexists; split; [done|]); split_and!; try done.
    + intros [?|?]; discriminate.
    + intros ? _ [= <-] _. split; [by rewrite E|]. intros _. simpl.
      split; [done|]. by rewrite <- !app_assoc.
    + intros ? _ [= <-] _. split; [done|]. by rewrite E.
  - eexists. split; [done|]. split_and!; try done.
Qed.

(** X18. The handler of POST /api/ask always responds, with status 400 or
    200 and a body of type text, list or error; its outer catch is never
    reached. Without a usable question (missing, not a string, empty or
    blank) the response is the 400 error and the state is untouched: no
    database connection, no provider call, no history write. With one the
    status is 200 and the body is what the orchestrator returned, also when
    that is an error response. *)
Theorem ask_handler_status req st :
  exists rsp st',
    ask_handler cfg world req st = (Return rsp, st')
    /\ legal_kind (body rsp)
    /\ ((forall q, ~ valid_question req q) ->
        rsp = bad_request /\ st' = st)
    /\ (forall q, valid_question req q ->
        status rsp = 200%nat
        /\ exists st1 st2,
             ensureDbConnection cfg world st = (Return tt, st1)
             /\ getAnswerFromLLM cfg world q st1 = (Return (body rsp), st2)).
Proof.
  destruct (question_dec req) as [[q V]|N].
  - destruct (ask_handler_answers cfg world req q st V) as (st1 & r & st2 & E1 & E2 & E).
    eexists _, _. split; [exact E|]. simpl.
    split; [by eapply orchestrator_legal|]. split; [intros N; by destruct (N q)|].
    intros q' V'. split; [done|]. exists st1, st2. split; [done|].
    destruct V as [V _], V' as [V' _]. rewrite V in V'. by injection V' as <-.
  - exists bad_request, st. split; [by apply ask_handler_rejects|].
    split; [apply legal_error|]. split; [done|]. intros q V. by destruct (N q).
Qed.

End Handlers.

(** ** The model at work *)

(** The first scenario of the specification. *)
Example scenario_text :
  parseAndValidateAIResponse
    (js "{~type~:~text~,~answer~:~A SAFE is a Simple Agreement for Future Equity.~,~follow_up~:null}")
    (lit "OpenRouter")
  = Return (obj [(lit "type", JStr (lit "text"));
                 (lit "answer", JStr (lit "A SAFE is a Simple Agreement for Future Equity."));
                 (lit "follow_up", JNull)]).
Proof. vm_compute. reflexivity. Qed.

(** The second scenario: a list inside a json fence. *)
Example scenario_fenced_list :
  parseAndValidateAIResponse
    (lit "```json" ++ nl
     ++ js "{~type~:~list~,~title~:~Tips~,~items~:[{~point~:~Plan~,~detail~:~Plan ahead~}]}"
     ++ nl ++ lit "```")
    (lit "OpenRouter")
  = Return (obj [(lit "type", JStr (lit "list")); (lit "title", JStr (lit "Tips"));
                 (lit "items", JArr [item_of (lit "Plan") (lit "Plan ahead")])]).
Proof. vm_compute. reflexivity. Qed.

Example bold_is_removed :
  removeMarkdownBold (lit "a **b** __c__ ***d***") = lit "a b c *d*".
Proof. vm_compute. reflexivity. Qed.

Example parse_nested :
  JSON_parse (js "{~a~: [1, -2.5e1, true, null, {}], ~bA\n~ : ~~, ~a~: [[]]}")
  = Some (obj [(lit "a", JArr [JArr []]); (lit "bA" ++ nl, JStr [])]).
Proof. vm_compute. reflexivity. Qed.

Example parse_rejects :
  JSON_parse (lit "[1,]") = None /\ JSON_parse (lit "01") = None
  /\ JSON_parse (lit "{} {}") = None /\ JSON_parse (lit "1.") = None
  /\ JSON_parse (lit "nul") = None /\ JSON_parse (lit "") = None
  /\ JSON_parse (js "{~a~}") = None /\ JSON_parse (js "~a") = None.
Proof. vm_compute. repeat split. Qed.

Example numbers_print :
  Number_toString (double_of_decimal false 1 (-1)) = lit "0.1"
  /\ Number_toString (double_of_decimal false 1 21) = lit "1e+21"
  /\ Number_toString (double_of_decimal true 123456 (-3)) = lit "-123.456"
  /\ Number_toString (double_of_decimal false 9007199254740993 0) = lit "9007199254740992".
Proof. vm_compute. repeat split. Qed.

(** An unknown [type] that has a primitive value is reported with code PV06. *)
Example unknown_type_is_PV06 :
  parseAndValidateAIResponse (js "{~type~:[1,null,~a~]}") (lit "GoogleAI")
  = Return (error_response
              (lit "AI from GoogleAI returned unknown type: '1,,a'. (E:PV06_GoogleAI)")).
Proof. vm_compute. reflexivity. Qed.
